(** * Sanity price monitor: the rate-update decision and batching engine

    A shallow embedding of [pricemonitor/storing/storing.py]
    ([SanityContractUpdater], [ContractRateArgumentsConverter]) and of the
    contract-updating actions of [pricemonitor/monitoring/monitor_actions.py].

    - Python exceptions are an error type [exn]; a call that can raise
      returns a [result].
    - Python [float] is IEEE-754 binary64, taken from the Standard Library's
      executable specification [SpecFloat] (precision 53, emax 1024,
      round to nearest even).
    - The updater object keeps one mutable field, [_updates_requested]; it is
      threaded, together with the log of calls made to the web3 connector,
      through a small state-and-exception monad [M].
    - A Python [dict] keyed by pairs is a [gmap]. *)

From stdpp Require Import base option list gmap strings.
From Stdlib Require Import ZArith Lia.
From Stdlib Require Import Floats.SpecFloat.

Local Open Scope Z_scope.

(** ** Python exceptions and results *)

Inductive exn : Type :=
  | TypeError
  | ZeroDivisionError
  | OverflowError
  | ValueError
  | IndexError
  | Web3ConnectionError
  | PreviousTransactionPending
  | OtherError (msg : string).

Inductive result (A : Type) : Type :=
  | Ok (a : A)
  | Raise (e : exn).
Arguments Ok {A} a.
Arguments Raise {A} e.

#[global] Instance result_ret : MRet result := fun _ a => Ok a.
#[global] Instance result_bind : MBind result := fun _ _ f r =>
  match r with
  | Ok a => f a
  | Raise e => Raise e
  end.

(** ** Python numbers: [float] is binary64 *)

Module Float64.

Definition prec : Z := 53.
Definition emax : Z := 1024.

Abbreviation float := spec_float.

(** An [int] seen as an unrounded binary number [z * 2^0]. *)
Definition exact_of_int (z : Z) : float :=
  match z with
  | Z0 => S754_zero false
  | Zpos p => S754_finite false p 0
  | Zneg p => S754_finite true p 0
  end.

Definition finite_or_overflow (f : float) : result float :=
  match f with
  | S754_infinity _ => Raise OverflowError
  | _ => Ok f
  end.

(** [float(z)]: correctly rounded; too large an [int] raises. *)
Definition of_int (z : Z) : result float :=
  finite_or_overflow (binary_normalize prec emax z 0 false).

(** [a / b] on two [int]s: the correctly rounded quotient. *)
Definition int_truediv (a b : Z) : result float :=
  if b =? 0 then Raise ZeroDivisionError
  else finite_or_overflow (SFdiv prec emax (exact_of_int a) (exact_of_int b)).

Definition zero : float := S754_zero false.

(** [x == 0] *)
Definition eq_zero (x : float) : bool := SFeqb x zero.

(** [bool(x)] *)
Definition truthy (x : float) : bool := negb (eq_zero x).

Definition sub (x y : float) : float := SFsub prec emax x y.
Definition abs (x : float) : float := SFabs x.
Definition mul (x y : float) : float := SFmul prec emax x y.

(** [x / y] on floats raises on a zero divisor. *)
Definition truediv (x y : float) : result float :=
  if eq_zero y then Raise ZeroDivisionError else Ok (SFdiv prec emax x y).

(** [x > y]; false as soon as one side is NaN. *)
Definition gt (x y : float) : bool := SFltb y x.

(** [x <= y] *)
Definition le (x y : float) : bool := SFleb x y.

(** [x * n] with [n] an [int]: [n] is converted to [float] first. *)
Definition mul_int (x : float) (n : Z) : result float :=
  y ← of_int n; Ok (mul x y).

(** Nearest integer to [m / 2^k], ties to even. *)
Definition half_even (m : Z) (k : Z) : Z :=
  let d := 2 ^ k in
  let q := m / d in
  let r := m mod d in
  match 2 * r ?= d with
  | Lt => q
  | Gt => q + 1
  | Eq => if Z.even q then q else q + 1
  end.

(** [round(x)] without [ndigits]: an [int], ties to even. *)
Definition round (x : float) : result Z :=
  match x with
  | S754_nan => Raise ValueError
  | S754_infinity _ => Raise OverflowError
  | S754_zero _ => Ok 0
  | S754_finite s m e =>
      let n := if 0 <=? e then Zpos m * 2 ^ e else half_even (Zpos m) (- e) in
      Ok (if s then - n else n)
  end.

(** Floats that a Python program can hold. *)
Definition is_binary64 (x : float) : Prop := valid_binary prec emax x = true.

End Float64.

Import Float64.

(** ** Data model *)

Module Coin.
(** Modelled from the spec: the coin class is declared in the configuration
    module; the updater reads its attributes [symbol], [address] and
    [volatility]. *)
Record t : Type := mk { symbol : string; address : string; volatility : float }.
End Coin.

Module Market.
(** Modelled from the spec: the market class is declared in the
    configuration module; the updater reads its attribute [symbol]. *)
Record t : Type := mk { symbol : string }.
End Market.

Abbreviation pair := (Coin.t * Market.t)%type.

(** A price is a [float] or [None]. *)
Abbreviation price := (option float).

(** One element of [coin_price_data]: [((coin, market), price)]. *)
Abbreviation observation := (pair * price)%type.

(** Modelled from the spec: a pair is a dictionary key, equal and hashed by
    [(coin.address, market.symbol)]. *)
Definition pair_key (p : pair) : string * string :=
  (Coin.address p.1, Market.symbol p.2).

Abbreviation rates_map := (gmap (string * string) float).

(** ** ContractRateArgumentsConverter *)

Module ContractRateArgumentsConverter.

Definition CHANGE_FACTOR : Z := 10 ^ 18.

Definition convert_rate_from_contract_units (rate_from_contract : Z) : result float :=
  int_truediv rate_from_contract CHANGE_FACTOR.

Definition convert_price_to_contract_units (price : float) : result Z :=
  scaled ← mul_int price CHANGE_FACTOR; round scaled.

(** [if price:] on a price that may be [None]. *)
Definition price_truthy (p : price) : bool :=
  match p with
  | None => false
  | Some x => truthy x
  end.

(** The body of the [for] loop, with the two lists built so far. *)
Fixpoint format_loop (coin_price_data : list observation)
    (sources : list string) (rates : list Z) : result (list string * list Z) :=
  match coin_price_data with
  | [] => Ok (sources, rates)
  | ((coin, market), p) :: rest =>
      match p with
      | Some x =>
          if truthy x then
            r ← convert_price_to_contract_units x;
            format_loop rest (sources ++ [Coin.address coin]) (rates ++ [r])
          else format_loop rest sources rates
      | None => format_loop rest sources rates
      end
  end.

Definition format_coin_prices_for_setter (coin_price_data : list observation)
    : result (list string * list Z) :=
  format_loop coin_price_data [] [].

Definition format_coin_for_getter (coin : Coin.t) : list string :=
  [Coin.address coin].

End ContractRateArgumentsConverter.

Import ContractRateArgumentsConverter.

(** ** The web3 connector and the configuration *)

(** Modelled from the spec: [call_remote_function] returns a transaction
    receipt; only its identity matters here. *)
Definition receipt : Type := string.

(** Modelled from the spec: the connector is the external collaborator
    [Web3Connector]. Within one cycle a read-only call answers from the chain
    state, so it is a function of its arguments; a write is logged in the
    heap (see [M]) before it answers. Either can raise. *)
Record Web3Connector : Type := {
  call_local_function : string → list string → result (list Z);
  call_remote_function : string → list string * list Z → result receipt
}.

(** Modelled from the spec: the configuration gives the tracked coins and the
    single market. *)
Record Config : Type := { coins : list Coin.t; market : Market.t }.

(** ** State and exceptions *)

(** What a cycle can change: the updater's counter and the writes sent to the
    connector, oldest first. *)
Record heap : Type := {
  _updates_requested : Z;
  remote_calls : list (string * (list string * list Z))
}.

Definition M (A : Type) : Type := heap → result A * heap.

#[global] Instance M_ret : MRet M := fun _ a h => (Ok a, h).
#[global] Instance M_bind : MBind M := fun _ _ f m h =>
  match m h with
  | (Ok a, h') => f a h'
  | (Raise e, h') => (Raise e, h')
  end.

(** A computation that raises or returns without touching the heap. *)
Definition lift {A : Type} (r : result A) : M A := fun h => (r, h).

(** [try: body except PreviousTransactionPending: handler] *)
Definition try_except_pending {A : Type} (body handler : M A) : M A := fun h =>
  match body h with
  | (Raise PreviousTransactionPending, h') => handler h'
  | r => r
  end.

(** [self._updates_requested += 1] *)
Definition incr_updates_requested : M unit := fun h =>
  (Ok (), {| _updates_requested := _updates_requested h + 1;
             remote_calls := remote_calls h |}).

(** The awaited write: the call is sent, then the connector answers. *)
Definition await_remote (web3 : Web3Connector) (function_name : string)
    (eth_args : list string * list Z) : M receipt := fun h =>
  (call_remote_function web3 function_name eth_args,
   {| _updates_requested := _updates_requested h;
      remote_calls := remote_calls h ++ [(function_name, eth_args)] |}).

(** [asyncio.gather] without [return_exceptions]: all results in order, or
    an exception of one of the awaited futures. The reads are independent, so
    the join is taken left to right and the leftmost exception is the one
    seen. *)
Fixpoint gather {A : Type} (futures : list (result A)) : result (list A) :=
  match futures with
  | [] => Ok []
  | f :: rest => a ← f; l ← gather rest; Ok (a :: l)
  end.

(** ** SanityContractUpdater *)

Module SanityContractUpdater.

Definition SET_RATES_FUNCTION_NAME : string := "setSanityRates".
Definition GET_RATE_FUNCTION_NAME : string := "tokenRate".

(** The fields set once by [__init__]; [_updates_requested] lives in the
    heap and [_rates_converter] has only static methods. *)
Record t : Type := { _web3 : Web3Connector; _config : Config }.

(** [__init__] starts the counter at zero and has sent nothing. *)
Definition initial_heap : heap := {| _updates_requested := 0; remote_calls := [] |}.

Definition _get_previous_rate (coin : Coin.t) (market : Market.t)
    (rates : rates_map) : price :=
  match rates !! pair_key (coin, market) with
  | Some r => Some r
  | None => None
  end.

(** The format specification [:<10.7f] applied to a value that may be [None]. *)
Definition format_f (v : price) : result unit :=
  match v with
  | Some _ => Ok ()
  | None => Raise TypeError
  end.

(** [current_rate - previous_rate] on values that may be [None]. *)
Definition price_sub (a b : price) : result float :=
  match a, b with
  | Some x, Some y => Ok (sub x y)
  | _, _ => Raise TypeError
  end.

(** [previous_rate == 0] on a value that may be [None]. *)
Definition price_eq_zero (p : price) : bool :=
  match p with
  | Some x => eq_zero x
  | None => false
  end.

(** The argument of the closing [log.debug] is an f-string, evaluated
    whatever the log level: it formats both rates as floats. *)
Definition debug_line (previous_rate current_rate : price) : result unit :=
  _ ← format_f previous_rate; format_f current_rate.

(** [a / previous_rate] with a divisor that may be [None]. *)
Definition price_div (a : float) (b : price) : result float :=
  match b with
  | Some y => truediv a y
  | None => Raise TypeError
  end.

Definition _should_update_price (coin : Coin.t) (market : Market.t)
    (previous_rate current_rate : price) : result bool :=
  should_update ←
    (if price_eq_zero previous_rate then Ok true
     else
       diff ← price_sub current_rate previous_rate;
       current_change ← price_div (abs diff) previous_rate;
       Ok (gt current_change (Coin.volatility coin)));
  _ ← debug_line previous_rate current_rate;
  Ok should_update.

(** The [for] loop of [_prepare_rates_for_update], with [updates] so far. *)
Fixpoint prepare_loop (previous_rates : rates_map) (new_rates : list observation)
    (updates : list observation) : result (list observation) :=
  match new_rates with
  | [] => Ok updates
  | ((coin, market), p) :: rest =>
      b ← _should_update_price coin market
            (_get_previous_rate coin market previous_rates) p;
      prepare_loop previous_rates rest
        (if b : bool then updates ++ [((coin, market), p)] else updates)
  end.

Definition _prepare_rates_for_update (previous_rates : rates_map)
    (new_rates : list observation) : result (list observation) :=
  prepare_loop previous_rates new_rates [].

(** [local_function_response[0]] *)
Definition first_value (response : list Z) : result Z :=
  match response with
  | v :: _ => Ok v
  | [] => Raise IndexError
  end.

Definition get_rate (self : t) (coin : Coin.t) : result float :=
  rate_from_contract ←
    match
      (local_function_response ←
         call_local_function (_web3 self) GET_RATE_FUNCTION_NAME
           (format_coin_for_getter coin);
       first_value local_function_response)
    with
    | Raise Web3ConnectionError => Raise Web3ConnectionError
    | r => r
    end;
  convert_rate_from_contract_units rate_from_contract.

Definition _get_pair_price_future (self : t) (coin : Coin.t) : result (pair * float) :=
  r ← get_rate self coin; Ok ((coin, market (_config self)), r).

(** The dictionary comprehension: a later entry replaces an earlier one with
    the same key. *)
Definition dict_of (entries : list (pair * float)) : rates_map :=
  foldl (fun d entry => <[pair_key entry.1 := entry.2]> d) ∅ entries.

Definition _get_previous_rates (self : t) : result rates_map :=
  previous_rates ←
    gather (map (_get_pair_price_future self) (coins (_config self)));
  Ok (dict_of previous_rates).

Definition set_rates (self : t) (coin_price_data : list observation) : M receipt :=
  eth_args ← lift (format_coin_prices_for_setter coin_price_data);
  await_remote (_web3 self) SET_RATES_FUNCTION_NAME eth_args.

(** [if rates_for_update:] on a list. *)
Definition nonempty {A : Type} (l : list A) : bool :=
  match l with
  | [] => false
  | _ :: _ => true
  end.

Definition update_prices (self : t) (coin_price_data : list observation)
    (force : bool) : M (option receipt) :=
  previous_rates ← lift (_get_previous_rates self);
  rates_for_update ←
    lift (if force then Ok coin_price_data
          else _prepare_rates_for_update previous_rates coin_price_data);
  if nonempty rates_for_update then
    try_except_pending
      (rs ← set_rates self rates_for_update;
       _ ← incr_updates_requested;
       mret (Some rs))
      (mret None)
  else mret None.

End SanityContractUpdater.

(** ** Monitor actions that update the contract *)

Module ContractUpdaterMonitor.

Record t : Type := { _updater : SanityContractUpdater.t; _force : bool }.

(** [__init__(config, force=False)]; the connector is built from the
    configuration by the transport layer and is given here. *)
Definition init (web3 : Web3Connector) (config : Config) (force : bool) : t :=
  {| _updater := {| SanityContractUpdater._web3 := web3;
                    SanityContractUpdater._config := config |};
     _force := force |}.

(** [act]: the print monitor writes the prices that are not [None] to the
    console, which is outside the heap; then the updater runs. *)
Definition act (self : t) (data : list observation) : M (option receipt) :=
  SanityContractUpdater.update_prices (_updater self) data (_force self).

End ContractUpdaterMonitor.

Module ContractUpdaterMonitorForce.

(** [__init__(config, force=True)] calling the parent's [__init__]. *)
Definition init (web3 : Web3Connector) (config : Config) : ContractUpdaterMonitor.t :=
  ContractUpdaterMonitor.init web3 config true.

End ContractUpdaterMonitorForce.

Import SanityContractUpdater.

(** ** Reference forms of the two loops and of the claims' formulas *)

(** The relative change of the decision rule, computed as the code does:
    [abs(observed - baseline) / baseline] in binary64. *)
Definition relative_change (observed baseline : float) : float :=
  SFdiv prec emax (abs (sub observed baseline)) baseline.

(** The decision on one observation against a baseline map. *)
Definition decision (previous_rates : rates_map) (obs : observation) : result bool :=
  _should_update_price obs.1.1 obs.1.2
    (_get_previous_rate obs.1.1 obs.1.2 previous_rates) obs.2.

(** The decisions of a whole batch, head first. *)
Fixpoint decide_all (previous_rates : rates_map) (new_rates : list observation)
    : result (list observation) :=
  match new_rates with
  | [] => Ok []
  | obs :: rest =>
      b ← decision previous_rates obs;
      l ← decide_all previous_rates rest;
      Ok (if b : bool then obs :: l else l)
  end.

(** The serialization of a batch, head first. *)
Fixpoint serialize (coin_price_data : list observation)
    : result (list string * list Z) :=
  match coin_price_data with
  | [] => Ok ([], [])
  | obs :: rest =>
      match obs.2 with
      | Some x =>
          if truthy x then
            r ← convert_price_to_contract_units x;
            sr ← serialize rest;
            Ok (Coin.address obs.1.1 :: sr.1, r :: sr.2)
          else serialize rest
      | None => serialize rest
      end
  end.

(** The observations that reach the arrays: those with a truthy price. *)
Definition included (coin_price_data : list observation) : list observation :=
  List.filter (fun obs => price_truthy obs.2) coin_price_data.

(** The batch that [update_prices] hands to [set_rates]. *)
Definition decided_batch (previous_rates : rates_map)
    (coin_price_data : list observation) (force : bool) : result (list observation) :=
  if force then Ok coin_price_data
  else _prepare_rates_for_update previous_rates coin_price_data.

(** Converting chain units to a decimal price and back. *)
Definition round_trip (x : Z) : result Z :=
  r ← convert_rate_from_contract_units x; convert_price_to_contract_units r.

(** ** Sample data *)

Definition ETH : Market.t := Market.mk "ETH".

(** [float_lit a b] is the float written [a / b] in decimal, e.g. 0.05. *)
Definition float_lit (a b : Z) : float :=
  SFdiv prec emax (exact_of_int a) (exact_of_int b).

Definition OMG : Coin.t := Coin.mk "OMG" "0xd26114cd6EE289AccF82350c8d8487fedB8A0C07" (float_lit 5 100).
Definition KNC : Coin.t := Coin.mk "KNC" "0xdd974D5C2e2928deA5F71b9825b8b646686BD200" (float_lit 5 100).

(** A connector whose every coin has no rate stored yet. *)
Definition fresh_chain : Web3Connector :=
  {| call_local_function := fun _ _ => Ok [0];
     call_remote_function := fun _ _ => Ok "0xreceipt"%string |}.

(** A connector whose account still has a transaction pending. *)
Definition pending_chain : Web3Connector :=
  {| call_local_function := fun _ _ => Ok [0];
     call_remote_function := fun _ _ => Raise PreviousTransactionPending |}.

(** A connector that stores 100 for every coin but cannot be reached for KNC. *)
Definition flaky_chain : Web3Connector :=
  {| call_local_function := fun _ args =>
       if decide (args = [Coin.address KNC]) then Raise Web3ConnectionError
       else Ok [100 * CHANGE_FACTOR];
     call_remote_function := fun _ _ => Ok "0xreceipt"%string |}.

Definition updater_on (web3 : Web3Connector) (tracked : list Coin.t) : SanityContractUpdater.t :=
  {| _web3 := web3; _config := {| coins := tracked; market := ETH |} |}.

(** A baseline map that stores 100.0 for OMG/ETH, and one that stores 0.0. *)
Definition stored_100 : rates_map := {[ pair_key (OMG, ETH) := float_lit 100 1 ]}.
Definition stored_0 : rates_map := {[ pair_key (OMG, ETH) := zero ]}.

(** ** Heaps after a write and after a counted update *)

(** The heap once a write with [eth_args] has been sent. *)
Definition sent (h : heap) (eth_args : list string * list Z) : heap :=
  {| _updates_requested := _updates_requested h;
     remote_calls := remote_calls h ++ [(SET_RATES_FUNCTION_NAME, eth_args)] |}.

(** The heap once the counter has been incremented. *)
Definition counted (h : heap) : heap :=
  {| _updates_requested := _updates_requested h + 1;
     remote_calls := remote_calls h |}.


(** A connector whose reads answer with no value at all. *)
Definition silent_chain : Web3Connector :=
  {| call_local_function := fun _ _ => Ok [];
     call_remote_function := fun _ _ => Ok "0xreceipt"%string |}.

(** ** The averaging monitor's store *)

Module PrintValuesAndAverageMonitor.

(** [self._all_data], a [defaultdict] of lists: a key that is absent reads as
    the empty list and is created when it is first read. *)
Abbreviation all_data := (gmap (string * string) (list float)).

(** [self._all_data[pair].append(price)] *)
Definition append_price (d : all_data) (pr : pair) (x : float) : all_data :=
  <[pair_key pr := default [] (d !! pair_key pr) ++ [x]]> d.

Fixpoint _save_data (d : all_data) (data : list observation) : all_data :=
  match data with
  | [] => d
  | (pr, p) :: rest =>
      _save_data (match p with
                  | Some x => append_price d pr x
                  | None => d
                  end) rest
  end.

End PrintValuesAndAverageMonitor.

(** The prices that [data] carries for the key [k], in order. *)
Definition recorded (k : string * string) (data : list observation) : list float :=
  omap (fun obs : observation => if decide (pair_key obs.1 = k) then obs.2 else None) data.

(** ** Rounding records

    A shift record [mrs] stands for the rational [a / b] when its mantissa is
    the integer part, its round bit says whether the fraction reaches one
    half and its sticky bit whether anything is left beyond that. *)
Definition represents (mrs : shr_record) (a b : Z) : Prop :=
  0 < b ∧ 0 ≤ shr_m mrs ∧
  shr_m mrs * b ≤ a < (shr_m mrs + 1) * b ∧
  (shr_r mrs = true ↔ b ≤ 2 * (a - shr_m mrs * b)) ∧
  (shr_s mrs = true ↔ a - shr_m mrs * b ≠ 0 ∧ 2 * (a - shr_m mrs * b) ≠ b).

(** Hypotheses and goals of the form [bit = true <-> P] with a known bit. *)
Ltac bools :=
  repeat match goal with
  | H : true = true ↔ _ |- _ => apply proj1 in H; specialize (H eq_refl)
  | H : false = true ↔ ?P |- _ =>
      let H' := fresh "Hn" in
      assert (H' : ¬ P) by (let HP := fresh in intros HP; apply (proj2 H) in HP; discriminate HP);
      clear H
  | |- true = true ↔ _ => split; [intros _|reflexivity]
  | |- false = true ↔ _ => split; [discriminate|intros ?; exfalso]
  end.


(** ** Facts about binary64 comparisons *)

Lemma gt_zero_not_eq_zero (b : float) : gt b zero = true → eq_zero b = false.
Proof. destruct b as [[]|[]| |[] m e]; simpl; intros H; try reflexivity; try discriminate H. Qed.

Lemma gt_irrefl (x : float) : gt x x = false.
Proof.
  destruct x as [[]|[]| |[] m e]; try reflexivity.
  - unfold gt, SFltb; simpl.
    rewrite Z.compare_refl, Pos.compare_cont_refl. reflexivity.
  - unfold gt, SFltb; simpl.
    rewrite Z.compare_refl, Pos.compare_cont_refl. reflexivity.
Qed.

Lemma price_truthy_false (p : price) :
  price_truthy p = false ↔ p = None ∨ ∃ x, p = Some x ∧ eq_zero x = true.
Proof.
  destruct p as [x|]; simpl; unfold truthy.
  - rewrite negb_false_iff. split.
    + intros H. right. exists x. split; [reflexivity|exact H].
    + intros [H|(y & H & Hy)]; [discriminate H|]. injection H as ->. exact Hy.
  - split; [intros _; left; reflexivity|reflexivity].
Qed.

(** ** The monads *)

Lemma result_bind_Ok {A B : Type} (f : A → result B) (a : A) :
  (Ok a ≫= f) = f a.
Proof. reflexivity. Qed.

Lemma lift_bind {A B : Type} (r : result A) (k : A → M B) (h : heap) :
  (lift r ≫= k) h = match r with Ok a => k a h | Raise e => (Raise e, h) end.
Proof. destruct r; reflexivity. Qed.

(** ** The loops against their reference forms *)

Lemma prepare_loop_decide_all previous_rates new_rates updates :
  prepare_loop previous_rates new_rates updates =
  (l ← decide_all previous_rates new_rates; Ok (updates ++ l)).
Proof.
  revert updates. induction new_rates as [|[[coin market] p] rest IH]; intros updates.
  - simpl. rewrite app_nil_r. reflexivity.
  - cbn [prepare_loop decide_all]. unfold decision. cbn [fst snd].
    destruct (_should_update_price _ _ _ _) as [b|e]; [|reflexivity].
    rewrite !result_bind_Ok, IH.
    destruct (decide_all _ rest) as [l|e]; [|reflexivity].
    rewrite !result_bind_Ok.
    destruct b; [rewrite <- app_assoc|]; reflexivity.
Qed.

Lemma prepare_is_decide_all previous_rates new_rates :
  _prepare_rates_for_update previous_rates new_rates =
  decide_all previous_rates new_rates.
Proof.
  unfold _prepare_rates_for_update. rewrite prepare_loop_decide_all.
  destruct (decide_all _ _); reflexivity.
Qed.

Lemma format_loop_serialize coin_price_data sources rates :
  format_loop coin_price_data sources rates =
  (sr ← serialize coin_price_data; Ok (sources ++ sr.1, rates ++ sr.2)).
Proof.
  revert sources rates.
  induction coin_price_data as [|[[coin market] p] rest IH]; intros sources rates.
  - simpl. rewrite !app_nil_r. reflexivity.
  - cbn [format_loop serialize fst snd]. destruct p as [x|]; [|apply IH].
    destruct (truthy x); [|apply IH].
    destruct (convert_price_to_contract_units x) as [r|e]; [|reflexivity].
    rewrite !result_bind_Ok, IH.
    destruct (serialize rest) as [[s rs]|e]; [|reflexivity].
    rewrite !result_bind_Ok. cbn [fst snd]. rewrite <- !app_assoc. reflexivity.
Qed.

Lemma format_is_serialize coin_price_data :
  format_coin_prices_for_setter coin_price_data = serialize coin_price_data.
Proof.
  unfold format_coin_prices_for_setter. rewrite format_loop_serialize.
  destruct (serialize _) as [[??]|]; reflexivity.
Qed.

Lemma eqb_not_gt (x y : float) : SFeqb x y = true → gt x y = false.
Proof.
  intros H.
  assert (Hxy : x = y ∨ gt x y = false).
  { destruct x as [sx|sx| |sx mx ex], y as [sy|sy| |sy my ey];
      try discriminate H; try (right; reflexivity);
      try (destruct sx, sy; try discriminate H; right; reflexivity).
    unfold SFeqb in H. cbn [SFcompare] in H.
    destruct sx, sy; try discriminate H;
      destruct (ex ?= ey) eqn:He; try discriminate H;
      apply Z.compare_eq in He; subst ey;
      destruct (Pos.compare_cont Eq mx my) eqn:Hm; try discriminate H;
      apply Pos.compare_eq in Hm; subst my; left; reflexivity. }
  destruct Hxy as [->|Hgt]; [apply gt_irrefl|exact Hgt].
Qed.

(** The sample floats are binary64 numbers. *)
Example sample_floats_are_binary64 :
  is_binary64 (float_lit 5 100) ∧ is_binary64 (float_lit 16883 1000000) ∧
  is_binary64 (float_lit 100 1) ∧ is_binary64 (float_lit 104 1) ∧
  is_binary64 (float_lit 105 1) ∧ is_binary64 (float_lit 106 1) ∧
  is_binary64 (float_lit 1 1) ∧ is_binary64 (float_lit (-1) 1).
Proof. vm_compute. repeat split; reflexivity. Qed.

(** ** The decision on one observation *)

Lemma should_update_some (coin : Coin.t) (market : Market.t) (baseline observed : float) :
  _should_update_price coin market (Some baseline) (Some observed) =
  Ok (if eq_zero baseline then true
      else gt (relative_change observed baseline) (Coin.volatility coin)).
Proof.
  unfold _should_update_price, price_eq_zero, price_sub, price_div, truediv,
    relative_change.
  destruct (eq_zero baseline); reflexivity.
Qed.

Lemma should_update_no_baseline (coin : Coin.t) (market : Market.t) (p : price) :
  _should_update_price coin market None p = Raise TypeError.
Proof. destruct p; reflexivity. Qed.

Lemma should_update_no_price (coin : Coin.t) (market : Market.t) (previous_rate : price) :
  _should_update_price coin market previous_rate None = Raise TypeError.
Proof.
  destruct previous_rate as [b|]; [|reflexivity].
  unfold _should_update_price, price_eq_zero.
  destruct (eq_zero b); reflexivity.
Qed.

Lemma get_previous_rate_lookup (coin : Coin.t) (market : Market.t) (rates : rates_map) :
  _get_previous_rate coin market rates = rates !! pair_key (coin, market).
Proof. unfold _get_previous_rate. destruct (rates !! _); reflexivity. Qed.

Lemma decision_some previous_rates coin market observed baseline :
  previous_rates !! pair_key (coin, market) = Some baseline →
  decision previous_rates ((coin, market), Some observed) =
  Ok (if eq_zero baseline then true
      else gt (relative_change observed baseline) (Coin.volatility coin)).
Proof.
  intros Hb. unfold decision. cbn [fst snd].
  rewrite get_previous_rate_lookup, Hb. apply should_update_some.
Qed.

Lemma decision_missing previous_rates coin market p :
  previous_rates !! pair_key (coin, market) = None →
  decision previous_rates ((coin, market), p) = Raise TypeError.
Proof.
  intros Hb. unfold decision. cbn [fst snd].
  rewrite get_previous_rate_lookup, Hb. apply should_update_no_baseline.
Qed.

(** A decision raises nothing but [TypeError]. *)
Lemma decision_raises previous_rates obs e :
  decision previous_rates obs = Raise e → e = TypeError.
Proof.
  destruct obs as [[coin market] [x|]]; unfold decision; cbn [fst snd].
  - rewrite get_previous_rate_lookup.
    destruct (previous_rates !! _) as [b|].
    + rewrite should_update_some. discriminate.
    + rewrite should_update_no_baseline. congruence.
  - rewrite should_update_no_price. congruence.
Qed.

(** ** The decisions of a batch *)

Lemma decide_all_elem previous_rates new_rates updates :
  decide_all previous_rates new_rates = Ok updates →
  ∀ obs, obs ∈ updates ↔ obs ∈ new_rates ∧ decision previous_rates obs = Ok true.
Proof.
  revert updates. induction new_rates as [|o rest IH]; intros updates H obs.
  - injection H as <-. split; [intros Hin|intros [Hin _]]; inversion Hin.
  - cbn [decide_all] in H.
    destruct (decision previous_rates o) as [b|e] eqn:Hd; [|discriminate H].
    rewrite result_bind_Ok in H.
    destruct (decide_all previous_rates rest) as [l|e] eqn:Hl; [|discriminate H].
    rewrite result_bind_Ok in H. injection H as <-.
    specialize (IH l eq_refl obs).
    rewrite elem_of_cons. destruct b.
    + rewrite elem_of_cons, IH. split.
      * intros [->|[Hin Hdec]]; [split; [left; reflexivity|exact Hd]|].
        split; [right; exact Hin|exact Hdec].
      * intros [[->|Hin] Hdec]; [left; reflexivity|right; split; assumption].
    + rewrite IH. split.
      * intros [Hin Hdec]. split; [right; exact Hin|exact Hdec].
      * intros [[->|Hin] Hdec]; [congruence|split; assumption].
Qed.

Lemma decide_all_total previous_rates new_rates :
  (∀ obs, obs ∈ new_rates → ∃ b, decision previous_rates obs = Ok b) →
  ∃ updates, decide_all previous_rates new_rates = Ok updates.
Proof.
  induction new_rates as [|o rest IH]; intros H.
  - exists []. reflexivity.
  - destruct (H o) as [b Hb]; [left|].
    destruct IH as [l Hl]; [intros obs Hin; apply H; right; exact Hin|].
    cbn [decide_all]. rewrite Hb, result_bind_Ok, Hl, result_bind_Ok.
    eexists. reflexivity.
Qed.

Lemma decide_all_raises previous_rates new_rates obs e :
  obs ∈ new_rates → decision previous_rates obs = Raise e →
  decide_all previous_rates new_rates = Raise TypeError.
Proof.
  induction new_rates as [|o rest IH]; intros Hin Hd; [inversion Hin|].
  cbn [decide_all].
  destruct (decision previous_rates o) as [b|e'] eqn:Ho.
  - rewrite result_bind_Ok. apply elem_of_cons in Hin as [->|Hin]; [congruence|].
    rewrite (IH Hin Hd). reflexivity.
  - apply decision_raises in Ho as ->. reflexivity.
Qed.

Lemma usable_decides previous_rates (obs : observation) :
  is_Some obs.2 → is_Some (previous_rates !! pair_key obs.1) →
  ∃ b, decision previous_rates obs = Ok b.
Proof.
  destruct obs as [[coin market] p]. cbn [fst snd].
  intros [x ->] [b Hb]. rewrite (decision_some _ _ _ _ _ Hb). eexists. reflexivity.
Qed.

(** ** The serialization of a batch *)

Lemma serialize_drop_falsy (before after : list observation) (pr : pair) (p : price) :
  price_truthy p = false →
  serialize (before ++ (pr, p) :: after) = serialize (before ++ after).
Proof.
  intros Hp. induction before as [|o rest IH].
  - cbn [app serialize snd]. destruct p as [x|]; [|reflexivity].
    cbn [price_truthy] in Hp. rewrite Hp. reflexivity.
  - cbn [app serialize]. rewrite IH. reflexivity.
Qed.

Lemma serialize_Ok (coin_price_data : list observation) (sources : list string)
    (rates : list Z) :
  serialize coin_price_data = Ok (sources, rates) →
  sources = map (fun obs : observation => Coin.address obs.1.1) (included coin_price_data) ∧
  Forall2 (fun (obs : observation) r =>
             ∃ x, obs.2 = Some x ∧ convert_price_to_contract_units x = Ok r)
    (included coin_price_data) rates.
Proof.
  revert sources rates.
  induction coin_price_data as [|[pr p] rest IH]; intros sources rates H.
  - injection H as <- <-. split; [reflexivity|constructor].
  - cbn [serialize snd fst] in H. unfold included. cbn [List.filter snd price_truthy].
    destruct p as [x|]; [|apply IH, H].
    cbn [price_truthy]. destruct (truthy x) eqn:Hx; [|apply IH, H].
    destruct (convert_price_to_contract_units x) as [r|e] eqn:Hr; [|discriminate H].
    rewrite result_bind_Ok in H.
    destruct (serialize rest) as [[s rs]|e] eqn:Hs; [|discriminate H].
    rewrite result_bind_Ok in H. cbn [fst snd] in H. injection H as <- <-.
    destruct (IH s rs eq_refl) as [-> HF]. split; [reflexivity|].
    constructor; [|exact HF]. exists x. split; [reflexivity|exact Hr].
Qed.

Lemma serialize_Raise (coin_price_data : list observation) (e : exn) :
  serialize coin_price_data = Raise e →
  ∃ coin market x, ((coin, market), Some x) ∈ coin_price_data ∧
    truthy x = true ∧ convert_price_to_contract_units x = Raise e.
Proof.
  induction coin_price_data as [|[[coin market] p] rest IH]; intros H;
    [discriminate H|].
  assert (Hrest : serialize rest = Raise e →
    ∃ coin0 market0 x, ((coin0, market0), Some x) ∈ ((coin, market), p) :: rest ∧
      truthy x = true ∧ convert_price_to_contract_units x = Raise e).
  { intros Hr. destruct (IH Hr) as (c & m & x & Hin & Hx & Hc).
    exists c, m, x. split; [right; exact Hin|split; assumption]. }
  cbn [serialize snd fst] in H.
  destruct p as [x|]; [|apply Hrest, H].
  destruct (truthy x) eqn:Hx; [|apply Hrest, H].
  destruct (convert_price_to_contract_units x) as [r|e'] eqn:Hr.
  - rewrite result_bind_Ok in H.
    destruct (serialize rest) as [[s rs]|e'] eqn:Hs; [discriminate H|].
    apply Hrest. exact H.
  - change (Raise e' = Raise e :> result (list string * list Z)) in H.
    injection H as ->. exists coin, market, x.
    split; [left|split; [exact Hx|exact Hr]].
Qed.

(** What the conversion to chain units can raise. *)
Lemma convert_price_raises (x : float) (e : exn) :
  convert_price_to_contract_units x = Raise e → e = OverflowError ∨ e = ValueError.
Proof.
  unfold convert_price_to_contract_units, mul_int.
  replace (of_int CHANGE_FACTOR) with (Ok (S754_finite false 7812500000000000 7))
    by (vm_compute; reflexivity).
  rewrite !result_bind_Ok. unfold round.
  destruct (mul x _); intros H; try discriminate H;
    injection H as <-; [left|right]; reflexivity.
Qed.

Lemma format_never_pending (coin_price_data : list observation) :
  format_coin_prices_for_setter coin_price_data ≠ Raise PreviousTransactionPending.
Proof.
  rewrite format_is_serialize. intros H.
  apply serialize_Raise in H as (c & m & x & _ & _ & H).
  apply convert_price_raises in H as [H|H]; discriminate H.
Qed.

(** ** Fetching the baseline *)

Lemma gather_raises {A : Type} (futures : list (result A)) (e : exn) :
  Raise e ∈ futures → ∃ e', gather futures = Raise e'.
Proof.
  induction futures as [|f rest IH]; intros Hin; [inversion Hin|].
  cbn [gather]. destruct f as [a|e0]; [|exists e0; reflexivity].
  apply elem_of_cons in Hin as [Heq|Hin]; [discriminate Heq|].
  destruct (IH Hin) as [e' ->]. exists e'. reflexivity.
Qed.

Lemma get_rate_unreachable (self : SanityContractUpdater.t) (coin : Coin.t) :
  call_local_function (_web3 self) GET_RATE_FUNCTION_NAME [Coin.address coin]
    = Raise Web3ConnectionError →
  get_rate self coin = Raise Web3ConnectionError.
Proof.
  intros H. unfold get_rate, format_coin_for_getter. rewrite H. reflexivity.
Qed.

Lemma get_previous_rates_unreachable (self : SanityContractUpdater.t) (coin : Coin.t) :
  coin ∈ coins (_config self) →
  call_local_function (_web3 self) GET_RATE_FUNCTION_NAME [Coin.address coin]
    = Raise Web3ConnectionError →
  ∃ e, _get_previous_rates self = Raise e.
Proof.
  intros Hin H. unfold _get_previous_rates.
  destruct (gather_raises (map (_get_pair_price_future self) (coins (_config self)))
              Web3ConnectionError) as [e He].
  - apply list_elem_of_fmap. exists coin. split; [|exact Hin].
    unfold _get_pair_price_future. rewrite (get_rate_unreachable _ _ H). reflexivity.
  - exists e. rewrite He. reflexivity.
Qed.

(** ** One cycle, case by case *)

Lemma update_prices_cases (self : SanityContractUpdater.t)
    (coin_price_data : list observation) (force : bool) (h : heap) :
  update_prices self coin_price_data force h =
  match _get_previous_rates self with
  | Raise e => (Raise e, h)
  | Ok previous_rates =>
      match decided_batch previous_rates coin_price_data force with
      | Raise e => (Raise e, h)
      | Ok batch =>
          if nonempty batch then
            match format_coin_prices_for_setter batch with
            | Raise e => (Raise e, h)
            | Ok eth_args =>
                match call_remote_function (_web3 self) SET_RATES_FUNCTION_NAME eth_args with
                | Ok rs => (Ok (Some rs), counted (sent h eth_args))
                | Raise PreviousTransactionPending => (Ok None, sent h eth_args)
                | Raise e => (Raise e, sent h eth_args)
                end
            end
          else (Ok None, h)
      end
  end.
Proof.
  unfold update_prices. rewrite lift_bind.
  destruct (_get_previous_rates self) as [previous_rates|e]; [|reflexivity].
  rewrite lift_bind. unfold decided_batch.
  destruct (if force then _ else _) as [batch|e]; [|reflexivity].
  destruct (nonempty batch); [|reflexivity].
  unfold try_except_pending, set_rates.
  pose proof (format_never_pending batch) as Hnp.
  unfold mbind at 1, M_bind at 1. rewrite lift_bind.
  destruct (format_coin_prices_for_setter batch) as [eth_args|e].
  - unfold await_remote.
    destruct (call_remote_function _ _ _) as [rs|e]; [reflexivity|].
    destruct e; reflexivity.
  - destruct e; try reflexivity. congruence.
Qed.

(** ** Rounding in binary64 and the round trip *)

Lemma digits2_bounds (p : positive) :
  2 ^ (Zpos (digits2_pos p) - 1) ≤ Zpos p < 2 ^ Zpos (digits2_pos p).
Proof.
  induction p as [p IH|p IH|]; cbn [digits2_pos].
  - rewrite Pos2Z.inj_succ, (Pos2Z.inj_xI p).
    replace (Z.succ (Zpos (digits2_pos p)) - 1) with (Z.succ (Zpos (digits2_pos p) - 1)) by lia.
    rewrite !Z.pow_succ_r by lia. lia.
  - rewrite Pos2Z.inj_succ, (Pos2Z.inj_xO p).
    replace (Z.succ (Zpos (digits2_pos p)) - 1) with (Z.succ (Zpos (digits2_pos p) - 1)) by lia.
    rewrite !Z.pow_succ_r by lia. lia.
  - cbn. lia.
Qed.

Lemma digits2_unique (p : positive) (k : Z) :
  2 ^ (k - 1) ≤ Zpos p < 2 ^ k → Zpos (digits2_pos p) = k.
Proof.
  intros [Hlo Hhi]. pose proof (digits2_bounds p) as [Hlo' Hhi'].
  set (d := Zpos (digits2_pos p)) in *.
  assert (Hd : 0 < d) by (subst d; lia).
  assert (Hk : 0 < k).
  { destruct (Z.lt_ge_cases 0 k) as [H|H]; [exact H|].
    assert (2 ^ k ≤ 1); [|lia].
    destruct (Z.eq_dec k 0) as [->|Hne]; [cbn; lia|].
    rewrite Z.pow_neg_r by lia. lia. }
  destruct (Z.lt_trichotomy d k) as [Hlt|[Heq|Hgt]]; [|exact Heq|].
  - assert (2 ^ d ≤ 2 ^ (k - 1)) by (apply Z.pow_le_mono_r; lia). lia.
  - assert (2 ^ k ≤ 2 ^ (d - 1)) by (apply Z.pow_le_mono_r; lia). lia.
Qed.

Lemma shr_1_represents (mrs : shr_record) (a b : Z) :
  represents mrs a b → represents (shr_1 mrs) a (2 * b).
Proof.
  destruct mrs as [m r s]. unfold represents. cbn [shr_m shr_r shr_s].
  intros (Hb & Hm & Ha & Hr & Hs).
  destruct m as [|[p|p|]|p]; cbn [shr_1 shr_m shr_r shr_s];
    rewrite ?(Pos2Z.inj_xI p), ?(Pos2Z.inj_xO p) in *; try lia;
    (split; [lia|]); (split; [lia|]); (split; [lia|]);
    destruct r, s; cbn [orb]; bools; split; bools; lia.
Qed.

Lemma iter_shr_represents (n : positive) (mrs : shr_record) (a b : Z) :
  represents mrs a b → represents (iter_pos shr_1 n mrs) a (2 ^ Zpos n * b).
Proof.
  revert mrs b. induction n as [n IH|n IH|]; intros mrs b H; cbn [iter_pos].
  - apply shr_1_represents, IH, IH in H.
    replace (2 ^ Zpos n~1 * b) with (2 ^ Zpos n * (2 ^ Zpos n * (2 * b))); [exact H|].
    replace (Zpos n~1) with (Zpos n + Zpos n + 1) by lia.
    rewrite !Z.pow_add_r, Z.pow_1_r by lia. ring.
  - apply IH, IH in H.
    replace (2 ^ Zpos n~0 * b) with (2 ^ Zpos n * (2 ^ Zpos n * b)); [exact H|].
    replace (Zpos n~0) with (Zpos n + Zpos n) by lia.
    rewrite Z.pow_add_r by lia. ring.
  - apply shr_1_represents in H. exact H.
Qed.

Lemma round_nearest_even_close (mrs : shr_record) (a b : Z) :
  represents mrs a b →
  2 * Z.abs (round_nearest_even (shr_m mrs) (loc_of_shr_record mrs) * b - a) ≤ b ∧
  shr_m mrs ≤ round_nearest_even (shr_m mrs) (loc_of_shr_record mrs) ≤ shr_m mrs + 1.
Proof.
  destruct mrs as [m r s]. unfold represents. cbn [shr_m shr_r shr_s].
  intros (Hb & Hm & Ha & Hr & Hs).
  destruct r, s; cbn [loc_of_shr_record round_nearest_even]; bools;
    try destruct (Z.even m); lia.
Qed.

Lemma shr_represents (mrs : shr_record) (e n a b : Z) :
  represents mrs a b → 0 ≤ n →
  represents (shr mrs e n).1 a (2 ^ n * b) ∧ (shr mrs e n).2 = e + n.
Proof.
  intros H Hn. destruct n as [|p|p]; [| |lia].
  - cbn [shr fst snd]. rewrite Z.pow_0_r, Z.mul_1_l, Z.add_0_r. split; [exact H|reflexivity].
  - cbn [shr fst snd]. split; [apply iter_shr_represents, H|reflexivity].
Qed.

Lemma binary_round_aux_spec (sx : bool) (m e : Z) (l : location) (a b n : Z) :
  represents (shr_record_of_loc m l) a b →
  0 ≤ n → 2 ^ (52 + n) ≤ m < 2 ^ (53 + n) →
  -1074 ≤ e + n → e + n + 1 ≤ 971 →
  ∃ m' e', binary_round_aux prec emax sx m e l = S754_finite sx m' e' ∧
    e + n ≤ e' ≤ e + n + 1 ∧
    2 ^ 52 ≤ Zpos m' < 2 ^ 53 ∧
    2 * Z.abs (Zpos m' * 2 ^ (e' - e) * b - a) ≤ 2 ^ n * b.
Proof.
  intros Hrep Hn Hm Hlo Hhi.
  assert (Hpow : 0 < 2 ^ n) by (apply Z.pow_pos_nonneg; lia).
  assert (H52 : 2 ^ (52 + n) = 2 ^ 52 * 2 ^ n) by (apply Z.pow_add_r; lia).
  assert (H53 : 2 ^ (53 + n) = 2 ^ 53 * 2 ^ n) by (apply Z.pow_add_r; lia).
  assert (Hmpos : 0 < m) by lia.
  destruct m as [|p|p]; try lia.
  assert (Hd : Zdigits2 (Zpos p) = 53 + n).
  { cbn [Zdigits2]. apply digits2_unique.
    replace (53 + n - 1) with (52 + n) by lia. exact Hm. }
  unfold binary_round_aux, shr_fexp. rewrite Hd.
  replace (fexp prec emax (53 + n + e) - e) with n
    by (unfold fexp, SpecFloat.emin, prec, emax; lia).
  destruct (shr_represents _ e n a b Hrep Hn) as [Hrep1 He1].
  destruct (shr (shr_record_of_loc (Zpos p) l) e n) as [mrs1 e1].
  cbn [fst snd] in Hrep1, He1. subst e1.
  destruct (round_nearest_even_close _ _ _ Hrep1) as [Hclose HN].
  set (N := round_nearest_even (shr_m mrs1) (loc_of_shr_record mrs1)) in *.
  assert (HM : 2 ^ 52 ≤ shr_m mrs1 < 2 ^ 53).
  { destruct Hrep1 as (Hb1 & _ & Ha1 & _). destruct Hrep as (Hb & _ & Ha & _).
    cbn [shr_m] in Ha.
    assert (Hlt : shr_m mrs1 < 2 ^ 53 ∧ 2 ^ 52 < shr_m mrs1 + 1); [|lia].
    destruct (shr_record_of_loc (Zpos p) l) as [m0 r0 s0] eqn:Hrec.
    assert (Hm0 : m0 = Zpos p) by (destruct l as [|[]]; injection Hrec; congruence).
    cbn [shr_m] in Ha. subst m0.
    set (M := shr_m mrs1) in *. set (T := 2 ^ n) in *.
    split.
    - assert (M * (T * b) < 2 ^ 53 * (T * b)) by nia.
      apply Z.mul_lt_mono_pos_r with (p := T * b); lia.
    - assert (2 ^ 52 * (T * b) < (M + 1) * (T * b)) by nia.
      apply Z.mul_lt_mono_pos_r with (p := T * b); lia. }
  destruct (Z.eq_dec N (2 ^ 53)) as [HNeq|HNne].
  - exists (2 ^ 52)%positive, (e + n + 1).
    rewrite HNeq.
    replace (shr (shr_record_of_loc (2 ^ 53) loc_Exact) (e + n)
               (fexp prec emax (Zdigits2 (2 ^ 53) + (e + n)) - (e + n)))
      with ({| shr_m := 2 ^ 52; shr_r := false; shr_s := false |}, e + n + 1).
    2:{ replace (fexp prec emax (Zdigits2 (2 ^ 53) + (e + n)) - (e + n)) with 1.
        - reflexivity.
        - change (Zdigits2 (2 ^ 53)) with 54.
          unfold fexp, SpecFloat.emin, prec, emax. lia. }
    cbn [shr_m].
    change (2 ^ 52) with (Zpos (2 ^ 52)).
    replace (e + n + 1 <=? emax - prec) with true
      by (symmetry; apply Z.leb_le; unfold emax, prec; lia).
    split; [reflexivity|]. split; [lia|]. split; [cbn; lia|].
    replace (e + n + 1 - e) with (n + 1) by lia.
    rewrite Z.pow_add_r, Z.pow_1_r by lia.
    replace (Zpos (2 ^ 52) * (2 ^ n * 2) * b) with (N * (2 ^ n * b))
      by (rewrite HNeq; change (Zpos (2 ^ 52)) with (2 ^ 52);
          change (2 ^ 53) with (2 ^ 52 * 2); ring).
    exact Hclose.
  - assert (HNb : 2 ^ 52 ≤ N < 2 ^ 53) by lia.
    destruct N as [|q|q] eqn:HNq; try lia.
    exists q, (e + n).
    assert (Hdq : Zdigits2 (Zpos q) = 53).
    { cbn [Zdigits2]. apply digits2_unique. exact HNb. }
    rewrite Hdq.
    replace (fexp prec emax (53 + (e + n)) - (e + n)) with 0
      by (unfold fexp, SpecFloat.emin, prec, emax; lia).
    cbn [shr shr_record_of_loc shr_m].
    replace (e + n <=? emax - prec) with true
      by (symmetry; apply Z.leb_le; unfold emax, prec; lia).
    split; [reflexivity|]. split; [lia|]. split; [exact HNb|].
    replace (e + n - e) with n by lia.
    replace (Zpos q * 2 ^ n * b) with (Zpos q * (2 ^ n * b)) by ring.
    exact Hclose.
Qed.

Lemma new_location_represents (q r D A : Z) :
  Z.even D = true → 0 < D → 0 ≤ q → A = D * q + r → 0 ≤ r < D →
  represents (shr_record_of_loc q (new_location D r)) A D.
Proof.
  intros Hev HD Hq HA Hr. unfold new_location. rewrite Hev.
  unfold new_location_even, represents.
  destruct (Z.eqb_spec r 0) as [Hr0|Hr0].
  - cbn [shr_record_of_loc shr_m shr_r shr_s].
    repeat split; bools; lia.
  - destruct (Z.compare_spec (2 * r) D) as [Hc|Hc|Hc];
      cbn [shr_record_of_loc shr_m shr_r shr_s];
      repeat split; bools; lia.
Qed.

Lemma half_even_near (m t x : Z) :
  0 < t → 2 * Z.abs (m - x * 2 ^ t) < 2 ^ t → half_even m t = x.
Proof.
  intros Ht H. unfold half_even.
  assert (Hd : 0 < 2 ^ t) by (apply Z.pow_pos_nonneg; lia).
  set (d := 2 ^ t) in *.
  destruct (Z.le_gt_cases (x * d) m) as [Hge|Hlt].
  - assert (Hq : m / d = x) by (symmetry; apply (Z.div_unique m d x (m - x * d)); lia).
    assert (Hr : m mod d = m - x * d)
      by (symmetry; apply (Z.mod_unique m d x (m - x * d)); lia).
    rewrite Hq, Hr.
    destruct (Z.compare_spec (2 * (m - x * d)) d); lia.
  - assert (Hq : m / d = x - 1)
      by (symmetry; apply (Z.div_unique m d (x - 1) (m - (x - 1) * d)); lia).
    assert (Hr : m mod d = m - (x - 1) * d)
      by (symmetry; apply (Z.mod_unique m d (x - 1) (m - (x - 1) * d)); lia).
    rewrite Hq, Hr.
    destruct (Z.compare_spec (2 * (m - (x - 1) * d)) d); lia.
Qed.

(** The quotient of a rate below [2^51] by the change factor. *)
Lemma rate_over_factor (px : positive) :
  Zpos px < 2 ^ 51 →
  let s := 113 - Zpos (digits2_pos px) in
  62 ≤ s ∧
  ∃ mq eq,
    SFdiv prec emax (exact_of_int (Zpos px)) (exact_of_int CHANGE_FACTOR)
      = S754_finite false mq eq ∧
    0 ≤ eq + s ≤ 2 ∧
    2 ^ 52 ≤ Zpos mq < 2 ^ 53 ∧
    ((eq + s = 0 ∧
      2 * Z.abs (Zpos mq * CHANGE_FACTOR - Zpos px * 2 ^ s) ≤ CHANGE_FACTOR) ∨
     (1 ≤ eq + s ∧
      2 * Z.abs (Zpos mq * 2 ^ (eq + s) * CHANGE_FACTOR - Zpos px * 2 ^ s)
        ≤ 2 * CHANGE_FACTOR)).
Proof.
  intros Hx s.
  pose proof (digits2_bounds px) as Hdig.
  set (d := Zpos (digits2_pos px)) in *.
  assert (Hd1 : 1 ≤ d) by (subst d; lia).
  assert (Hd51 : d ≤ 51).
  { destruct (Z.le_gt_cases d 51) as [H|H]; [exact H|].
    assert (2 ^ 51 ≤ 2 ^ (d - 1)) by (apply Z.pow_le_mono_r; lia). lia. }
  assert (Hs : 62 ≤ s) by (subst s; lia).
  split; [exact Hs|].
  set (A := Zpos px * 2 ^ s).
  assert (HA : 2 ^ 112 ≤ A < 2 ^ 113).
  { subst A. replace 112 with (d - 1 + s) by (subst s; lia).
    replace 113 with (d + s) by (subst s; lia).
    rewrite !Z.pow_add_r by lia.
    assert (0 < 2 ^ s) by (apply Z.pow_pos_nonneg; lia). nia. }
  assert (Hcore : SFdiv_core_binary prec emax (Zpos px) 0 CHANGE_FACTOR 0 =
                  (A / CHANGE_FACTOR, - s,
                   new_location CHANGE_FACTOR (A mod CHANGE_FACTOR))).
  { unfold SFdiv_core_binary.
    change (Zdigits2 (Zpos px)) with d.
    change (Zdigits2 CHANGE_FACTOR) with 60.
    replace (Z.min (fexp prec emax (d + 0 - (60 + 0))) (0 - 0)) with (- s)
      by (unfold fexp, SpecFloat.emin, prec, emax; subst s; lia).
    replace (0 - 0 - - s) with s by lia.
    destruct s as [|ps|ps] eqn:Hsp; try lia.
    rewrite Z.shiftl_mul_pow2 by lia. fold A.
    unfold Z.div, Z.modulo.
    destruct (Z.div_eucl A CHANGE_FACTOR) as [q r]. reflexivity. }
  pose proof (Z_div_mod A CHANGE_FACTOR eq_refl) as Hdm.
  unfold Z.div, Z.modulo in Hcore.
  destruct (Z.div_eucl A CHANGE_FACTOR) as [q r]. destruct Hdm as [HAq Hr].
  assert (HD : CHANGE_FACTOR = 10 ^ 18) by reflexivity.
  assert (Hq : 2 ^ 52 ≤ q < 2 ^ 54).
  { rewrite HD in HAq, Hr. lia. }
  assert (Hrep : represents (shr_record_of_loc q (new_location CHANGE_FACTOR r))
                   A CHANGE_FACTOR).
  { apply new_location_represents; try assumption; try reflexivity; lia. }
  cbn [SFdiv exact_of_int].
  change (Zpos (Z.to_pos CHANGE_FACTOR)) with CHANGE_FACTOR in *.
  change (exact_of_int CHANGE_FACTOR) with (S754_finite false (Z.to_pos CHANGE_FACTOR) 0).
  cbn [SFdiv]. change (Zpos (Z.to_pos CHANGE_FACTOR)) with CHANGE_FACTOR.
  rewrite Hcore. cbn [xorb].
  destruct (Z.lt_ge_cases q (2 ^ 53)) as [Hq53|Hq53].
  - destruct (binary_round_aux_spec false q (- s) _ A CHANGE_FACTOR 0 Hrep)
      as (mq & eq & Heq & He & Hmq & Hclose); try lia.
    exists mq, eq. split; [exact Heq|]. split; [lia|]. split; [exact Hmq|].
    rewrite Z.pow_0_r, Z.mul_1_l in Hclose.
    replace (eq - - s) with (eq + s) in Hclose by lia.
    destruct (Z.eq_dec (eq + s) 0) as [H0|H0].
    + left. split; [exact H0|]. rewrite H0, Z.pow_0_r, Z.mul_1_r in Hclose.
      exact Hclose.
    + right. split; [lia|]. fold A. lia.
  - destruct (binary_round_aux_spec false q (- s) _ A CHANGE_FACTOR 1 Hrep)
      as (mq & eq & Heq & He & Hmq & Hclose); try lia.
    exists mq, eq. split; [exact Heq|]. split; [lia|]. split; [exact Hmq|].
    right. split; [lia|].
    replace (eq - - s) with (eq + s) in Hclose by lia.
    rewrite Z.pow_1_r in Hclose. fold A. exact Hclose.
Qed.

(** X1. Below [2^51] the round trip through chain units is exact: a rate
    read from the contract, turned into a price and converted back is the
    rate itself. *)
Lemma round_trip_exact_below (x : Z) :
  0 ≤ x < 2 ^ 51 → round_trip x = Ok x.
Proof.
  intros [Hx0 Hx]. destruct x as [|px|px]; [reflexivity| |lia].
  destruct (rate_over_factor px Hx) as (Hs & mq & eq & Hdiv & HK & Hmq & Hq).
  pose proof (digits2_bounds px) as [_ Hdig].
  set (s := 113 - Zpos (digits2_pos px)) in *.
  set (S := 2 ^ s) in *.
  assert (HS : 2 ^ 62 ≤ S) by (apply Z.pow_le_mono_r; lia).
  assert (HA : Zpos px * S + S ≤ 2 ^ 113).
  { replace 113 with (Zpos (digits2_pos px) + s) by (subst s; lia).
    rewrite Z.pow_add_r by lia. fold S. nia. }
  unfold round_trip, convert_rate_from_contract_units, int_truediv.
  change (CHANGE_FACTOR =? 0) with false. cbv iota.
  rewrite Hdiv. cbn [finite_or_overflow]. rewrite result_bind_Ok.
  unfold convert_price_to_contract_units, mul_int.
  change (of_int CHANGE_FACTOR) with (Ok (S754_finite false 7812500000000000 7)).
  rewrite !result_bind_Ok. unfold mul. cbn [SFmul xorb].
  rewrite Pos2Z.inj_mul.
  set (D7 := 7812500000000000) in *.
  assert (HD : CHANGE_FACTOR = 128 * D7) by reflexivity.
  set (P := Zpos mq * D7).
  assert (HP : 2 ^ 104 ≤ P < 2 ^ 106) by (subst P D7; lia).
  assert (Hrep : represents (shr_record_of_loc P loc_Exact) P 1).
  { unfold represents. cbn [shr_record_of_loc shr_m shr_r shr_s].
    repeat split; bools; lia. }
  assert (Hn2 : ∃ n2, (n2 = 52 ∨ n2 = 53) ∧ 2 ^ (52 + n2) ≤ P < 2 ^ (53 + n2)).
  { destruct (Z.lt_ge_cases P (2 ^ 105)) as [H|H]; [exists 52|exists 53];
      (split; [lia|]); cbn; lia. }
  destruct Hn2 as (n2 & Hn2 & HPn).
  destruct (binary_round_aux_spec false P (eq + 7) loc_Exact P 1 n2 Hrep)
    as (mp & ep & Hmul & Hep & Hmp & Hclose); try lia.
  rewrite Hmul. unfold round.
  set (K := eq + s) in *. set (j := ep - (eq + 7)) in *.
  set (t := - ep).
  assert (Hst : s = t + (K + 7 + j)) by (subst t K j; lia).
  assert (HKj : K + n2 ≤ 53).
  { destruct (Z.le_gt_cases (K + n2) 53) as [H|H]; [exact H|exfalso].
    rewrite HD in Hq.
    destruct Hn2 as [-> | ->];
      assert (HKc : K = 1 ∨ K = 2) by lia;
      destruct HKc as [HKc|HKc]; rewrite HKc in *;
      destruct Hq as [[Hc _]|[_ Hq]]; try lia;
      change (2 ^ 1) with 2 in Hq; change (2 ^ 2) with 4 in Hq;
      fold P in Hq; cbn in HPn; lia. }
  assert (Ht : 1 ≤ t) by lia.
  replace (0 <=? ep) with false by (symmetry; apply Z.leb_gt; lia).
  fold t. f_equal.
  apply half_even_near; [lia|].
  set (Tt := 2 ^ t).
  assert (HTt : 0 < Tt) by (apply Z.pow_pos_nonneg; lia).
  assert (HSt : S = Tt * 2 ^ (K + 7 + j)).
  { subst S Tt. rewrite Hst. apply Z.pow_add_r; lia. }
  set (X := Zpos px * Tt) in *.
  assert (HAX : Zpos px * S = X * 2 ^ (K + 7 + j)) by (subst X; rewrite HSt; ring).
  rewrite HAX in Hq. rewrite HSt in HS. rewrite HD in Hq.
  rewrite Z.mul_1_r in Hclose. fold j in Hclose.
  clear HAX HSt HA Hrep Hmul Hdiv Hst. clearbody X Tt. subst P. unfold D7 in *.
  assert (Hj : j = n2 ∨ j = n2 + 1) by lia.
  assert (HKc : K = 0 ∨ K = 1 ∨ K = 2) by lia.
  destruct Hn2 as [-> | ->]; destruct Hj as [Hj|Hj]; rewrite Hj in *;
    destruct HKc as [HKc|[HKc|HKc]]; rewrite HKc in *; try lia;
    destruct Hq as [[Hc Hq]|[Hc Hq]]; try lia; cbn in *; lia.
Qed.

(** Above that bound the round trip can lose a unit, here between [2^51]
    and [2^52], and past [2^53] no odd rate survives. *)
Example round_trip_inexact_above :
  2 ^ 51 ≤ 4456418181297841 < 2 ^ 52 ∧
  round_trip 4456418181297841 = Ok 4456418181297840 ∧
  round_trip (2 ^ 53 + 1) = Ok (2 ^ 53).
Proof. vm_compute. repeat split; try reflexivity; discriminate. Qed.

(** ** The decision step *)

Lemma prepare_usable_total (previous_rates : rates_map) (new_rates : list observation) :
  (∀ obs, obs ∈ new_rates →
     is_Some obs.2 ∧ is_Some (previous_rates !! pair_key obs.1)) →
  ∃ updates, _prepare_rates_for_update previous_rates new_rates = Ok updates.
Proof.
  intros Hall. rewrite prepare_is_decide_all. apply decide_all_total.
  intros obs Hin. destruct (Hall obs Hin) as [Hp Hb].
  apply usable_decides; assumption.
Qed.

Lemma prepare_missing_baseline (previous_rates : rates_map)
    (new_rates : list observation) (coin : Coin.t) (market : Market.t) (p : price) :
  ((coin, market), p) ∈ new_rates →
  previous_rates !! pair_key (coin, market) = None →
  _prepare_rates_for_update previous_rates new_rates = Raise TypeError.
Proof.
  intros Hin Hb. rewrite prepare_is_decide_all.
  apply (decide_all_raises _ _ _ TypeError Hin), decision_missing, Hb.
Qed.

Lemma prepare_missing_price (previous_rates : rates_map)
    (new_rates : list observation) (pr : pair) :
  (pr, None) ∈ new_rates →
  _prepare_rates_for_update previous_rates new_rates = Raise TypeError.
Proof.
  intros Hin. rewrite prepare_is_decide_all.
  apply (decide_all_raises _ _ _ TypeError Hin).
  destruct pr as [coin market]. unfold decision. cbn [fst snd].
  apply should_update_no_price.
Qed.

(** C1. For a pair whose baseline is strictly positive, the decision step
    puts the observation in the update batch if and only if
    [abs(observed - baseline) / baseline] is strictly greater than the coin's
    volatility threshold; a change equal to the threshold is not an update.
    The batch is produced as soon as every observation carries a price and
    has a fetched baseline. *)
Theorem update_iff_change_above_threshold
    (previous_rates : rates_map) (new_rates : list observation)
    (coin : Coin.t) (market : Market.t) (observed baseline : float) :
  (∀ obs, obs ∈ new_rates →
     is_Some obs.2 ∧ is_Some (previous_rates !! pair_key obs.1)) →
  ((coin, market), Some observed) ∈ new_rates →
  previous_rates !! pair_key (coin, market) = Some baseline →
  gt baseline zero = true →
  ∃ updates,
    _prepare_rates_for_update previous_rates new_rates = Ok updates ∧
    (((coin, market), Some observed) ∈ updates ↔
       gt (relative_change observed baseline) (Coin.volatility coin) = true) ∧
    (SFeqb (relative_change observed baseline) (Coin.volatility coin) = true →
       ((coin, market), Some observed) ∉ updates).
Proof.
  intros Hall Hin Hb Hpos.
  destruct (prepare_usable_total _ _ Hall) as [updates Hu].
  exists updates. split; [exact Hu|].
  rewrite prepare_is_decide_all in Hu.
  pose proof (decide_all_elem _ _ _ Hu ((coin, market), Some observed)) as Hel.
  rewrite (decision_some _ _ _ _ _ Hb), (gt_zero_not_eq_zero _ Hpos) in Hel.
  assert (Hiff : ((coin, market), Some observed) ∈ updates ↔
            gt (relative_change observed baseline) (Coin.volatility coin) = true).
  { rewrite Hel. split.
    - intros [_ H]. injection H as H. exact H.
    - intros H. split; [exact Hin|rewrite H; reflexivity]. }
  split; [exact Hiff|].
  intros Heq Hmem. apply Hiff in Hmem.
  rewrite (eqb_not_gt _ _ Heq) in Hmem. discriminate Hmem.
Qed.

(** C2. For a pair whose fetched baseline equals 0 the decision step puts the
    observation in the update batch whatever the observed price and the
    threshold are, the observation carrying a price. *)
Theorem zero_baseline_always_updates
    (previous_rates : rates_map) (new_rates : list observation)
    (coin : Coin.t) (market : Market.t) (observed baseline : float) :
  (∀ obs, obs ∈ new_rates →
     is_Some obs.2 ∧ is_Some (previous_rates !! pair_key obs.1)) →
  ((coin, market), Some observed) ∈ new_rates →
  previous_rates !! pair_key (coin, market) = Some baseline →
  eq_zero baseline = true →
  ∃ updates,
    _prepare_rates_for_update previous_rates new_rates = Ok updates ∧
    ((coin, market), Some observed) ∈ updates.
Proof.
  intros Hall Hin Hb Hzero.
  destruct (prepare_usable_total _ _ Hall) as [updates Hu].
  exists updates. split; [exact Hu|].
  rewrite prepare_is_decide_all in Hu.
  apply (decide_all_elem _ _ _ Hu). split; [exact Hin|].
  rewrite (decision_some _ _ _ _ _ Hb), Hzero. reflexivity.
Qed.

(** C3. A pair that is absent from the baseline map is not treated as having
    baseline 0: [_get_previous_rate] answers [None], which is not [== 0], and
    the subtraction raises [TypeError], here on an empty baseline map. *)
Theorem absent_baseline_raises :
  _prepare_rates_for_update ∅ [((OMG, ETH), Some (float_lit 16883 1000000))]
  = Raise TypeError.
Proof. reflexivity. Qed.

(** C4. Converting 16883000000000000 chain units to a decimal price and back
    gives 16882999999999998: the round trip is not the identity, and
    the rate of the docstring's own example, 0.016883, is not sent as
    16,883,000,000,000,000. *)
Theorem round_trip_loses_units :
  round_trip 16883000000000000 = Ok 16882999999999998 ∧
  convert_rate_from_contract_units 16883000000000000 = Ok (float_lit 16883 1000000) ∧
  convert_price_to_contract_units (float_lit 16883 1000000) = Ok 16882999999999998.
Proof. vm_compute. repeat split; reflexivity. Qed.

Lemma update_iff_change_above_threshold_witness :
  ∃ updates,
    _prepare_rates_for_update stored_100 [((OMG, ETH), Some (float_lit 106 1))]
      = Ok updates ∧
    (((OMG, ETH), Some (float_lit 106 1)) ∈ updates ↔
       gt (relative_change (float_lit 106 1) (float_lit 100 1)) (Coin.volatility OMG)
         = true) ∧
    (SFeqb (relative_change (float_lit 106 1) (float_lit 100 1)) (Coin.volatility OMG)
       = true →
     ((OMG, ETH), Some (float_lit 106 1)) ∉ updates).
Proof.
  apply (update_iff_change_above_threshold stored_100
           [((OMG, ETH), Some (float_lit 106 1))] OMG ETH
           (float_lit 106 1) (float_lit 100 1)).
  - intros obs Hin. apply list_elem_of_singleton in Hin. rewrite Hin.
    split; eexists; reflexivity.
  - left.
  - reflexivity.
  - reflexivity.
Defined.

Lemma zero_baseline_always_updates_witness :
  ∃ updates,
    _prepare_rates_for_update stored_0 [((OMG, ETH), Some (float_lit 16883 1000000))]
      = Ok updates ∧
    ((OMG, ETH), Some (float_lit 16883 1000000)) ∈ updates.
Proof.
  apply (zero_baseline_always_updates stored_0
           [((OMG, ETH), Some (float_lit 16883 1000000))] OMG ETH
           (float_lit 16883 1000000) zero).
  - intros obs Hin. apply list_elem_of_singleton in Hin. rewrite Hin.
    split; eexists; reflexivity.
  - left.
  - reflexivity.
  - reflexivity.
Defined.

(** The spec's example: threshold 0.05 and baseline 100.0; 104.0 and 105.0
    are left alone, 106.0 is updated. *)
Example threshold_example :
  _prepare_rates_for_update stored_100
    [((OMG, ETH), Some (float_lit 104 1)); ((OMG, ETH), Some (float_lit 105 1));
     ((OMG, ETH), Some (float_lit 106 1))]
  = Ok [((OMG, ETH), Some (float_lit 106 1))].
Proof. reflexivity. Qed.

(** ** The serialization step *)

Lemma serialize_included (coin_price_data : list observation) :
  serialize (included coin_price_data) = serialize coin_price_data.
Proof.
  induction coin_price_data as [|[pr p] rest IH]; [reflexivity|].
  unfold included. cbn [List.filter snd]. fold (included rest).
  destruct p as [x|]; cbn [price_truthy]; [|exact IH].
  destruct (truthy x) eqn:Hx; [|cbn [serialize snd]; rewrite Hx; exact IH].
  cbn [serialize snd fst]. rewrite Hx, IH. reflexivity.
Qed.

Lemma included_elem (coin_price_data : list observation) (obs : observation) :
  obs ∈ included coin_price_data ↔
  obs ∈ coin_price_data ∧ price_truthy obs.2 = true.
Proof.
  unfold included. rewrite !list_elem_of_In, filter_In. reflexivity.
Qed.

Lemma price_truthy_true (p : price) :
  price_truthy p = true ↔ ∃ x, p = Some x ∧ eq_zero x = false.
Proof.
  destruct p as [x|]; cbn [price_truthy]; unfold truthy.
  - rewrite negb_true_iff. split.
    + intros H. exists x. split; [reflexivity|exact H].
    + intros (y & H & Hy). injection H as ->. exact Hy.
  - split; [discriminate|intros (y & H & _); discriminate H].
Qed.

(** C9. When the setter arguments are produced, the two arrays have the same
    length, and at every index [i] the source is the address of the [i]-th
    included pair and the rate is that pair's price converted to chain units;
    they fail to be produced only when the conversion of an included price
    raises. *)
Theorem setter_arrays_aligned (coin_price_data : list observation) :
  match format_coin_prices_for_setter coin_price_data with
  | Ok (sources, rates) =>
      length sources = length rates ∧
      length sources = length (included coin_price_data) ∧
      ∀ (i : nat) (coin : Coin.t) (market : Market.t) (p : price),
        included coin_price_data !! i = Some ((coin, market), p) →
        sources !! i = Some (Coin.address coin) ∧
        ∃ x r, p = Some x ∧ rates !! i = Some r ∧
               convert_price_to_contract_units x = Ok r
  | Raise e =>
      ∃ coin market x, ((coin, market), Some x) ∈ coin_price_data ∧
        truthy x = true ∧ convert_price_to_contract_units x = Raise e
  end.
Proof.
  rewrite format_is_serialize.
  destruct (serialize coin_price_data) as [[sources rates]|e] eqn:Hs;
    [|apply serialize_Raise, Hs].
  destruct (serialize_Ok _ _ _ Hs) as [Hsrc HF].
  assert (Hlen : length sources = length (included coin_price_data)).
  { rewrite Hsrc. apply length_map. }
  split; [rewrite Hlen; apply (Forall2_length _ _ _ HF)|].
  split; [exact Hlen|].
  intros i coin market p Hi. split.
  - rewrite Hsrc. change (map ?f ?l) with (f <$> l).
    rewrite list_lookup_fmap, Hi. reflexivity.
  - destruct (Forall2_lookup_l _ _ _ _ _ HF Hi) as (r & Hr & x & Hp & Hc).
    exists x, r. cbn [snd] in Hp. split; [exact Hp|split; [exact Hr|exact Hc]].
Qed.

(** C5, as stated, fails: an observation with the negative price -1.0 and
    no rate stored yet is decided for update, serialized and sent. *)
Lemma negative_price_is_sent :
  le (float_lit (-1) 1) zero = true ∧
  update_prices (updater_on fresh_chain [OMG])
    [((OMG, ETH), Some (float_lit (-1) 1))] false initial_heap
  = (Ok (Some "0xreceipt"%string),
     {| _updates_requested := 1;
        remote_calls :=
          [(SET_RATES_FUNCTION_NAME, ([Coin.address OMG], [- 10 ^ 18]))] |}).
Proof. vm_compute. split; reflexivity. Qed.

Lemma decided_batch_elem (previous_rates : rates_map)
    (coin_price_data batch : list observation) (force : bool) (obs : observation) :
  decided_batch previous_rates coin_price_data force = Ok batch →
  obs ∈ batch → obs ∈ coin_price_data.
Proof.
  unfold decided_batch. destruct force.
  - intros H. injection H as <-. intros H; exact H.
  - rewrite prepare_is_decide_all. intros H Hin.
    apply (decide_all_elem _ _ _ H) in Hin as [Hin _]. exact Hin.
Qed.

(** C5, amended. An observation whose price is [None] or equal to 0 is
    skipped without error by the serialization step, and it never reaches
    the arrays sent to the contract, whatever its baseline: every write of a
    cycle carries the serialization of observations of the input whose price
    is a float different from 0, their addresses in order. *)
Theorem falsy_price_never_sent (self : SanityContractUpdater.t)
    (coin_price_data : list observation) (force : bool) (h : heap) :
  (∀ (before after : list observation) (pr : pair) (p : price),
     p = None ∨ (∃ x, p = Some x ∧ eq_zero x = true) →
     format_coin_prices_for_setter (before ++ (pr, p) :: after) =
     format_coin_prices_for_setter (before ++ after)) ∧
  (∀ call, call ∈ remote_calls (update_prices self coin_price_data force h).2 →
     call ∈ remote_calls h ∨
     ∃ batch : list observation,
       format_coin_prices_for_setter batch = Ok call.2 ∧
       call.2.1 = map (fun obs : observation => Coin.address obs.1.1) batch ∧
       ∀ obs, obs ∈ batch →
         obs ∈ coin_price_data ∧ ∃ x, obs.2 = Some x ∧ eq_zero x = false).
Proof.
  split.
  - intros before after pr p Hp. rewrite !format_is_serialize.
    apply serialize_drop_falsy, price_truthy_false, Hp.
  - intros call. rewrite update_prices_cases.
    destruct (_get_previous_rates self) as [previous_rates|e]; [|left; assumption].
    destruct (decided_batch previous_rates coin_price_data force)
      as [batch|e] eqn:Hb; [|left; assumption].
    destruct (nonempty batch); [|left; assumption].
    destruct (format_coin_prices_for_setter batch) as [eth_args|e] eqn:Hf;
      [|left; assumption].
    assert (Hsent : call ∈ remote_calls (sent h eth_args) →
      call ∈ remote_calls h ∨
      ∃ batch0 : list observation,
        format_coin_prices_for_setter batch0 = Ok call.2 ∧
        call.2.1 = map (fun obs : observation => Coin.address obs.1.1) batch0 ∧
        ∀ obs, obs ∈ batch0 →
          obs ∈ coin_price_data ∧ ∃ x, obs.2 = Some x ∧ eq_zero x = false).
    { cbn [sent remote_calls]. rewrite elem_of_app, list_elem_of_singleton.
      intros [Hold| ->]; [left; exact Hold|right].
      exists (included batch). cbn [snd].
      rewrite format_is_serialize in Hf |- *. rewrite serialize_included.
      split; [exact Hf|].
      destruct eth_args as [sources rates].
      split; [apply (serialize_Ok _ _ _ Hf)|].
      intros obs Hin. apply included_elem in Hin as [Hin Ht].
      split; [apply (decided_batch_elem _ _ _ _ _ Hb Hin)|].
      apply price_truthy_true, Ht. }
    destruct (call_remote_function _ _ _) as [rs|e]; [exact Hsent|].
    destruct e; exact Hsent.
Qed.

Lemma falsy_price_never_sent_witness :
  format_coin_prices_for_setter
    ([((OMG, ETH), Some (float_lit 1 1))] ++ ((KNC, ETH), None) :: []) =
  format_coin_prices_for_setter ([((OMG, ETH), Some (float_lit 1 1))] ++ []).
Proof.
  apply (proj1 (falsy_price_never_sent (updater_on fresh_chain [OMG]) [] true
                  initial_heap)).
  left. reflexivity.
Defined.

(** ** The cycle *)

Lemma nonempty_true {A : Type} (l : list A) : l ≠ [] → nonempty l = true.
Proof. destruct l; [intros H; destruct (H eq_refl)|reflexivity]. Qed.

(** The counter moves only when the write has been sent and has answered. *)
Lemma counter_moves_only_on_success (self : SanityContractUpdater.t)
    (coin_price_data : list observation) (force : bool) (h h' : heap)
    (r : result (option receipt)) :
  update_prices self coin_price_data force h = (r, h') →
  _updates_requested h' ≠ _updates_requested h →
  ∃ batch rs,
    set_rates self batch h = (Ok rs, {| _updates_requested := _updates_requested h;
                                        remote_calls := remote_calls h' |}) ∧
    r = Ok (Some rs) ∧
    _updates_requested h' = _updates_requested h + 1.
Proof.
  rewrite update_prices_cases.
  destruct (_get_previous_rates self) as [previous_rates|e];
    [|intros [= <- <-] Hne; destruct (Hne eq_refl)].
  destruct (decided_batch previous_rates coin_price_data force) as [batch|e];
    [|intros [= <- <-] Hne; destruct (Hne eq_refl)].
  destruct (nonempty batch); [|intros [= <- <-] Hne; destruct (Hne eq_refl)].
  destruct (format_coin_prices_for_setter batch) as [eth_args|e] eqn:Hf;
    [|intros [= <- <-] Hne; destruct (Hne eq_refl)].
  destruct (call_remote_function _ _ _) as [rs|e] eqn:Hc.
  - intros [= <- <-] _. exists batch, rs. split; [|split; reflexivity].
    unfold set_rates. unfold mbind, M_bind, lift. rewrite Hf.
    unfold await_remote. rewrite Hc. reflexivity.
  - destruct e; intros [= <- <-] Hne; destruct (Hne eq_refl).
Qed.

Lemma cycle_aborts_when_unreachable (self : SanityContractUpdater.t)
    (coin : Coin.t) (coin_price_data : list observation) (force : bool) (h : heap) :
  coin ∈ coins (_config self) →
  call_local_function (_web3 self) GET_RATE_FUNCTION_NAME [Coin.address coin]
    = Raise Web3ConnectionError →
  ∃ e, _get_previous_rates self = Raise e ∧
       update_prices self coin_price_data force h = (Raise e, h).
Proof.
  intros Hin Hfail.
  destruct (get_previous_rates_unreachable self coin Hin Hfail) as [e He].
  exists e. split; [exact He|].
  rewrite update_prices_cases, He. reflexivity.
Qed.

(** C6. When the read of one tracked coin's rate fails with a connectivity
    error, the baseline fetch raises instead of giving a map, and the cycle
    raises the same exception with the heap untouched: no write is sent and
    the counter stays, forced or not. *)
Theorem unreachable_read_aborts_cycle (self : SanityContractUpdater.t)
    (coin : Coin.t) (coin_price_data : list observation) (force : bool) (h : heap) :
  coin ∈ coins (_config self) →
  call_local_function (_web3 self) GET_RATE_FUNCTION_NAME [Coin.address coin]
    = Raise Web3ConnectionError →
  ∃ e, _get_previous_rates self = Raise e ∧
       update_prices self coin_price_data force h = (Raise e, h).
Proof. apply cycle_aborts_when_unreachable. Qed.

Lemma unreachable_read_aborts_cycle_witness :
  ∃ e, _get_previous_rates (updater_on flaky_chain [OMG; KNC]) = Raise e ∧
       update_prices (updater_on flaky_chain [OMG; KNC])
         [((OMG, ETH), Some (float_lit 106 1))] false initial_heap
       = (Raise e, initial_heap).
Proof.
  apply (unreachable_read_aborts_cycle (updater_on flaky_chain [OMG; KNC]) KNC).
  - right. left.
  - reflexivity.
Defined.

(** C7. When the write raises the pending-transaction collision, the cycle
    has sent that one write and no other, returns [None] and leaves the
    counter as it was; whenever a cycle changes the counter, [set_rates] has
    returned a receipt and the counter has grown by one. *)
Theorem pending_collision_not_counted (self : SanityContractUpdater.t)
    (coin_price_data batch : list observation) (force : bool) (h : heap)
    (previous_rates : rates_map) (eth_args : list string * list Z) :
  _get_previous_rates self = Ok previous_rates →
  decided_batch previous_rates coin_price_data force = Ok batch →
  batch ≠ [] →
  format_coin_prices_for_setter batch = Ok eth_args →
  call_remote_function (_web3 self) SET_RATES_FUNCTION_NAME eth_args
    = Raise PreviousTransactionPending →
  update_prices self coin_price_data force h =
    (Ok None,
     {| _updates_requested := _updates_requested h;
        remote_calls := remote_calls h ++ [(SET_RATES_FUNCTION_NAME, eth_args)] |}) ∧
  ∀ data' force' h0 r h1,
    update_prices self data' force' h0 = (r, h1) →
    _updates_requested h1 ≠ _updates_requested h0 →
    ∃ batch' rs,
      set_rates self batch' h0 =
        (Ok rs, {| _updates_requested := _updates_requested h0;
                   remote_calls := remote_calls h1 |}) ∧
      r = Ok (Some rs) ∧
      _updates_requested h1 = _updates_requested h0 + 1.
Proof.
  intros Hprev Hbatch Hne Hf Hc. split.
  - rewrite update_prices_cases, Hprev, Hbatch, (nonempty_true _ Hne), Hf, Hc.
    reflexivity.
  - intros data' force' h0 r h1. apply counter_moves_only_on_success.
Qed.

Lemma pending_collision_not_counted_witness :
  update_prices (updater_on pending_chain [OMG])
    [((OMG, ETH), Some (float_lit 1 1))] false initial_heap =
  (Ok None,
   {| _updates_requested := 0;
      remote_calls := [(SET_RATES_FUNCTION_NAME, ([Coin.address OMG], [10 ^ 18]))] |}).
Proof.
  refine (proj1 (pending_collision_not_counted (updater_on pending_chain [OMG])
                   [((OMG, ETH), Some (float_lit 1 1))]
                   [((OMG, ETH), Some (float_lit 1 1))] false initial_heap
                   stored_0 ([Coin.address OMG], [10 ^ 18]) _ _ _ _ _)).
  - reflexivity.
  - reflexivity.
  - discriminate.
  - reflexivity.
  - reflexivity.
Defined.

(** C8, as stated, fails: a write that was sent and hit the pending-transaction
    collision returns the very result of a cycle with nothing to send. *)
Lemma collision_result_is_noop_result :
  remote_calls (update_prices (updater_on pending_chain [OMG])
                  [((OMG, ETH), Some (float_lit 1 1))] false initial_heap).2
    = [(SET_RATES_FUNCTION_NAME, ([Coin.address OMG], [10 ^ 18]))] ∧
  remote_calls (update_prices (updater_on pending_chain [OMG]) [] false initial_heap).2
    = [] ∧
  (update_prices (updater_on pending_chain [OMG])
     [((OMG, ETH), Some (float_lit 1 1))] false initial_heap).1
  = (update_prices (updater_on pending_chain [OMG]) [] false initial_heap).1.
Proof. vm_compute. repeat split; reflexivity. Qed.

(** C8, amended. When the decided batch is empty the cycle sends no write,
    returns [None] and leaves the heap as it was. That result differs from
    the one of a write that succeeded, which is the receipt, with the counter
    incremented; it is the same [None] as after a collision. *)
Theorem empty_batch_sends_nothing (self : SanityContractUpdater.t)
    (coin_price_data : list observation) (force : bool) (h : heap)
    (previous_rates : rates_map) :
  _get_previous_rates self = Ok previous_rates →
  decided_batch previous_rates coin_price_data force = Ok [] →
  update_prices self coin_price_data force h = (Ok None, h) ∧
  ∀ data' force' h0 batch eth_args rs,
    decided_batch previous_rates data' force' = Ok batch →
    batch ≠ [] →
    format_coin_prices_for_setter batch = Ok eth_args →
    call_remote_function (_web3 self) SET_RATES_FUNCTION_NAME eth_args = Ok rs →
    update_prices self data' force' h0 = (Ok (Some rs), counted (sent h0 eth_args)) ∧
    (update_prices self data' force' h0).1 ≠
    (update_prices self coin_price_data force h).1.
Proof.
  intros Hprev Hempty.
  assert (Hnoop : update_prices self coin_price_data force h = (Ok None, h)).
  { rewrite update_prices_cases, Hprev, Hempty. reflexivity. }
  split; [exact Hnoop|].
  intros data' force' h0 batch eth_args rs Hbatch Hne Hf Hc.
  assert (Hrun : update_prices self data' force' h0 =
                 (Ok (Some rs), counted (sent h0 eth_args))).
  { rewrite update_prices_cases, Hprev, Hbatch, (nonempty_true _ Hne), Hf, Hc.
    reflexivity. }
  split; [exact Hrun|]. rewrite Hrun, Hnoop. discriminate.
Qed.

Lemma empty_batch_sends_nothing_witness :
  update_prices (updater_on fresh_chain [OMG]) [] false initial_heap
  = (Ok None, initial_heap).
Proof.
  refine (proj1 (empty_batch_sends_nothing (updater_on fresh_chain [OMG]) [] false
                   initial_heap stored_0 _ _)).
  - reflexivity.
  - reflexivity.
Defined.

(** C10. A forced cycle does not consult the decision step: with a non-empty
    input it sends one write whose arrays are the serialization of the whole
    input, the addresses of all observations with a truthy price, whatever
    the fetched baseline and the thresholds are. The baseline is fetched
    first all the same, so a connectivity failure on the read of one tracked
    coin makes the forced cycle raise with nothing sent. *)
Theorem forced_cycle_bypasses_decision (web3 : Web3Connector) (config : Config)
    (data : list observation) (h : heap) :
  let monitor := ContractUpdaterMonitorForce.init web3 config in
  let self := ContractUpdaterMonitor._updater monitor in
  (∀ previous_rates eth_args,
     _get_previous_rates self = Ok previous_rates →
     data ≠ [] →
     format_coin_prices_for_setter data = Ok eth_args →
     remote_calls (ContractUpdaterMonitor.act monitor data h).2 =
       remote_calls h ++ [(SET_RATES_FUNCTION_NAME, eth_args)] ∧
     eth_args.1 = map (fun obs : observation => Coin.address obs.1.1) (included data)) ∧
  (∀ coin,
     coin ∈ coins config →
     call_local_function web3 GET_RATE_FUNCTION_NAME [Coin.address coin]
       = Raise Web3ConnectionError →
     ∃ e, ContractUpdaterMonitor.act monitor data h = (Raise e, h)).
Proof.
  intros monitor self. split.
  - intros previous_rates eth_args Hprev Hne Hf.
    unfold ContractUpdaterMonitor.act. fold self.
    change (ContractUpdaterMonitor._force monitor) with true.
    rewrite update_prices_cases, Hprev. cbn [decided_batch].
    rewrite (nonempty_true _ Hne), Hf. split.
    + destruct (call_remote_function _ _ _) as [rs|e]; [reflexivity|].
      destruct e; reflexivity.
    + destruct eth_args as [sources rates]. rewrite format_is_serialize in Hf.
      apply (serialize_Ok _ _ _ Hf).
  - intros coin Hin Hfail. unfold ContractUpdaterMonitor.act. fold self.
    destruct (cycle_aborts_when_unreachable self coin data
                (ContractUpdaterMonitor._force monitor) h Hin Hfail)
      as (e & _ & He).
    exists e. exact He.
Qed.

Lemma forced_cycle_bypasses_decision_witness :
  remote_calls
    (ContractUpdaterMonitor.act
       (ContractUpdaterMonitorForce.init flaky_chain {| coins := [OMG]; market := ETH |})
       [((OMG, ETH), Some (float_lit 104 1))] initial_heap).2
  = remote_calls initial_heap ++
    [(SET_RATES_FUNCTION_NAME, ([Coin.address OMG], [104 * 10 ^ 18]))] ∧
  ∃ e,
    ContractUpdaterMonitor.act
      (ContractUpdaterMonitorForce.init flaky_chain {| coins := [OMG; KNC]; market := ETH |})
      [((OMG, ETH), Some (float_lit 104 1))] initial_heap
    = (Raise e, initial_heap).
Proof.
  split.
  - refine (proj1 (proj1 (forced_cycle_bypasses_decision flaky_chain
                            {| coins := [OMG]; market := ETH |}
                            [((OMG, ETH), Some (float_lit 104 1))] initial_heap)
                     stored_100 ([Coin.address OMG], [104 * 10 ^ 18]) _ _ _)).
    + reflexivity.
    + discriminate.
    + reflexivity.
  - refine (proj2 (forced_cycle_bypasses_decision flaky_chain
                     {| coins := [OMG; KNC]; market := ETH |}
                     [((OMG, ETH), Some (float_lit 104 1))] initial_heap) KNC _ _).
    + right. left.
    + reflexivity.
Defined.

(** ** Further properties: the round trip *)

Lemma round_trip_exact_below_witness :
  round_trip 1000000000000000 = Ok 1000000000000000.
Proof. apply round_trip_exact_below. lia. Defined.

(** ** Further properties: reading a rate *)

(** The quotient of any positive 256-bit rate by the change factor is a
    positive normal binary64 number. *)
Lemma rate_quotient_normal (px : positive) :
  Zpos px < 2 ^ 256 →
  ∃ mq eq,
    SFdiv prec emax (exact_of_int (Zpos px)) (exact_of_int CHANGE_FACTOR)
      = S754_finite false mq eq ∧
    2 ^ 52 ≤ Zpos mq < 2 ^ 53 ∧ -113 ≤ eq ≤ 200.
Proof.
  intros Hx.
  pose proof (digits2_bounds px) as Hdig.
  set (d := Zpos (digits2_pos px)) in *.
  assert (Hd1 : 1 ≤ d) by (subst d; lia).
  set (s := Z.max (113 - d) 0).
  assert (Hs0 : 0 ≤ s ≤ 112) by (subst s; lia).
  set (A := Zpos px * 2 ^ s).
  assert (HA : 2 ^ 112 ≤ A < 2 ^ 256).
  { subst A. destruct (Z.le_gt_cases d 113) as [Hle|Hgt].
    - assert (Hsd : s = 113 - d) by (subst s; lia).
      assert (0 < 2 ^ s) by (apply Z.pow_pos_nonneg; lia).
      assert (H1 : 2 ^ (d - 1) * 2 ^ s = 2 ^ 112)
        by (rewrite <- Z.pow_add_r by lia; f_equal; lia).
      assert (H2 : 2 ^ d * 2 ^ s = 2 ^ 113)
        by (rewrite <- Z.pow_add_r by lia; f_equal; lia).
      split; [nia|].
      assert (Zpos px * 2 ^ s < 2 ^ 113) by nia. lia.
    - assert (Hsd : s = 0) by (subst s; lia). rewrite Hsd, Z.pow_0_r, Z.mul_1_r.
      split; [|exact Hx].
      assert (2 ^ 112 ≤ 2 ^ (d - 1)) by (apply Z.pow_le_mono_r; lia). lia. }
  assert (Hcore : SFdiv_core_binary prec emax (Zpos px) 0 CHANGE_FACTOR 0 =
                  (A / CHANGE_FACTOR, - s,
                   new_location CHANGE_FACTOR (A mod CHANGE_FACTOR))).
  { unfold SFdiv_core_binary.
    change (Zdigits2 (Zpos px)) with d.
    change (Zdigits2 CHANGE_FACTOR) with 60.
    replace (Z.min (fexp prec emax (d + 0 - (60 + 0))) (0 - 0)) with (- s)
      by (unfold fexp, SpecFloat.emin, prec, emax; subst s; lia).
    replace (0 - 0 - - s) with s by lia.
    assert (Hm' : match s with
                  | Zpos _ => Z.shiftl (Zpos px) s
                  | Z0 => Zpos px
                  | Zneg _ => 0
                  end = A).
    { subst A. destruct s as [|ps|ps] eqn:Hsp; try lia.
      rewrite Z.shiftl_mul_pow2 by lia. reflexivity. }
    rewrite Hm'. unfold Z.div, Z.modulo.
    destruct (Z.div_eucl A CHANGE_FACTOR) as [q r]. reflexivity. }
  pose proof (Z_div_mod A CHANGE_FACTOR eq_refl) as Hdm.
  unfold Z.div, Z.modulo in Hcore.
  destruct (Z.div_eucl A CHANGE_FACTOR) as [q r]. destruct Hdm as [HAq Hr].
  assert (HD : CHANGE_FACTOR = 10 ^ 18) by reflexivity.
  assert (Hq : 2 ^ 52 ≤ q < 2 ^ 197) by (rewrite HD in HAq, Hr; lia).
  assert (Hrep : represents (shr_record_of_loc q (new_location CHANGE_FACTOR r))
                   A CHANGE_FACTOR).
  { apply new_location_represents; try assumption; try reflexivity; lia. }
  destruct q as [|pq|pq]; try lia.
  pose proof (digits2_bounds pq) as Hdq.
  set (dq := Zpos (digits2_pos pq)) in *.
  assert (Hdq53 : 53 ≤ dq ≤ 197).
  { split.
    - destruct (Z.le_gt_cases 53 dq) as [H|H]; [exact H|].
      assert (2 ^ dq ≤ 2 ^ 52) by (apply Z.pow_le_mono_r; lia). lia.
    - destruct (Z.le_gt_cases dq 197) as [H|H]; [exact H|].
      assert (2 ^ 197 ≤ 2 ^ (dq - 1)) by (apply Z.pow_le_mono_r; lia). lia. }
  change (exact_of_int CHANGE_FACTOR) with (S754_finite false (Z.to_pos CHANGE_FACTOR) 0).
  cbn [SFdiv exact_of_int]. change (Zpos (Z.to_pos CHANGE_FACTOR)) with CHANGE_FACTOR.
  rewrite Hcore. cbn [xorb].
  destruct (binary_round_aux_spec false (Zpos pq) (- s) _ A CHANGE_FACTOR (dq - 53) Hrep)
    as (mq & eq & Heq & He & Hmq & _); try lia.
  { replace (52 + (dq - 53)) with (dq - 1) by lia.
    replace (53 + (dq - 53)) with dq by lia. exact Hdq. }
  exists mq, eq. split; [exact Heq|]. split; [exact Hmq|lia].
Qed.

Lemma normal_is_binary64 (sx : bool) (m : positive) (e : Z) :
  2 ^ 52 ≤ Zpos m < 2 ^ 53 → -1074 ≤ e ≤ 971 →
  is_binary64 (S754_finite sx m e).
Proof.
  intros Hm He. unfold is_binary64, valid_binary, bounded, canonical_mantissa.
  rewrite (digits2_unique m 53 Hm).
  apply andb_true_intro. split.
  - apply Z.eqb_eq. unfold fexp, SpecFloat.emin, prec, emax. lia.
  - apply Z.leb_le. unfold prec, emax. lia.
Qed.

(** X2. A read that answers with a 256-bit unsigned rate always gives a
    baseline: [get_rate] returns a binary64 number, which is 0.0 when the
    contract stores 0 and is strictly positive otherwise, so the bootstrap
    branch of the decision is taken exactly for a stored 0. *)
Theorem get_rate_of_uint256 (self : SanityContractUpdater.t) (coin : Coin.t)
    (raw : Z) (others : list Z) :
  call_local_function (_web3 self) GET_RATE_FUNCTION_NAME [Coin.address coin]
    = Ok (raw :: others) →
  0 ≤ raw < 2 ^ 256 →
  ∃ f, get_rate self coin = Ok f ∧ is_binary64 f ∧
       (raw = 0 → f = zero) ∧ (0 < raw → gt f zero = true) ∧
       (eq_zero f = true ↔ raw = 0).
Proof.
  intros Hcall [H0 H256].
  unfold get_rate, format_coin_for_getter. rewrite Hcall.
  rewrite result_bind_Ok. cbn [first_value]. rewrite result_bind_Ok.
  unfold convert_rate_from_contract_units, int_truediv.
  change (CHANGE_FACTOR =? 0) with false. cbv iota.
  destruct raw as [|px|px]; [| |lia].
  - exists zero. split; [reflexivity|]. split; [reflexivity|].
    split; [reflexivity|]. split; [lia|]. split; reflexivity.
  - destruct (rate_quotient_normal px H256) as (mq & eq & Hdiv & Hmq & He).
    rewrite Hdiv. exists (S754_finite false mq eq).
    split; [reflexivity|]. split; [apply normal_is_binary64; [exact Hmq|lia]|].
    split; [discriminate|]. split; [reflexivity|].
    split; [discriminate|discriminate].
Qed.

Lemma get_rate_of_uint256_witness :
  ∃ f, get_rate (updater_on flaky_chain [OMG]) OMG = Ok f ∧ is_binary64 f ∧
       (100 * CHANGE_FACTOR = 0 → f = zero) ∧
       (0 < 100 * CHANGE_FACTOR → gt f zero = true) ∧
       (eq_zero f = true ↔ 100 * CHANGE_FACTOR = 0).
Proof.
  apply (get_rate_of_uint256 (updater_on flaky_chain [OMG]) OMG
           (100 * CHANGE_FACTOR) []).
  - reflexivity.
  - vm_compute. split; [discriminate|reflexivity].
Defined.

(** ** Further properties: converting a price *)

Lemma shr_1_nonneg (mrs : shr_record) : 0 ≤ shr_m mrs → 0 ≤ shr_m (shr_1 mrs).
Proof.
  destruct mrs as [m r s]. destruct m as [|[p|p|]|p]; cbn [shr_1 shr_m]; lia.
Qed.

Lemma iter_shr_nonneg (n : positive) (mrs : shr_record) :
  0 ≤ shr_m mrs → 0 ≤ shr_m (iter_pos shr_1 n mrs).
Proof.
  revert mrs. induction n as [n IH|n IH|]; intros mrs H; cbn [iter_pos].
  - apply IH, IH, shr_1_nonneg, H.
  - apply IH, IH, H.
  - apply shr_1_nonneg, H.
Qed.

Lemma shr_fexp_nonneg (m e : Z) (l : location) :
  0 ≤ m → 0 ≤ shr_m (shr_fexp prec emax m e l).1.
Proof.
  intros Hm. unfold shr_fexp, shr.
  assert (H0 : 0 ≤ shr_m (shr_record_of_loc m l)) by (destruct l as [|[]]; exact Hm).
  destruct (fexp prec emax (Zdigits2 m + e) - e) as [|p|p]; cbn [fst];
    [exact H0|apply iter_shr_nonneg, H0|exact H0].
Qed.

Lemma round_nearest_even_nonneg (m : Z) (l : location) :
  0 ≤ m → 0 ≤ round_nearest_even m l.
Proof.
  intros Hm. destruct l as [|[]]; cbn [round_nearest_even];
    try destruct (Z.even m); lia.
Qed.

(** Rounding a non-negative mantissa keeps the sign and never gives NaN. *)
Lemma binary_round_aux_sign (sx : bool) (m e : Z) (l : location) :
  0 ≤ m →
  match binary_round_aux prec emax sx m e l with
  | S754_nan => False
  | S754_zero s | S754_infinity s | S754_finite s _ _ => s = sx
  end.
Proof.
  intros Hm. unfold binary_round_aux.
  pose proof (shr_fexp_nonneg m e l Hm) as H1.
  destruct (shr_fexp prec emax m e l) as [mrs1 e1]. cbn [fst] in H1.
  pose proof (round_nearest_even_nonneg (shr_m mrs1) (loc_of_shr_record mrs1) H1) as HN.
  pose proof (shr_fexp_nonneg _ e1 loc_Exact HN) as H2.
  destruct (shr_fexp prec emax _ e1 loc_Exact) as [mrs2 e2]. cbn [fst] in H2.
  destruct (shr_m mrs2) as [|p|p]; [reflexivity| |lia].
  destruct (e2 <=? emax - prec); reflexivity.
Qed.

Lemma half_even_nonneg (m k : Z) : 0 ≤ m → 0 ≤ half_even m k.
Proof.
  intros Hm. unfold half_even.
  assert (0 ≤ m / 2 ^ k)
    by (apply Z_div_nonneg_nonneg; [exact Hm|apply Z.pow_nonneg; lia]).
  destruct (2 * (m mod 2 ^ k) ?= 2 ^ k); try destruct (Z.even _); lia.
Qed.

(** X3. The conversion to chain units keeps the sign of the price: a positive
    price never gives a negative rate, a negative price never a positive one,
    and a zero price gives 0. It raises [ValueError] exactly on a NaN price
    and otherwise only [OverflowError], when the scaled price is infinite. *)
Theorem convert_price_keeps_sign (p : float) :
  match convert_price_to_contract_units p with
  | Ok r =>
      p ≠ S754_nan ∧
      (gt p zero = true → 0 ≤ r) ∧ (gt zero p = true → r ≤ 0) ∧
      (eq_zero p = true → r = 0)
  | Raise e =>
      (p = S754_nan ∧ e = ValueError) ∨ (p ≠ S754_nan ∧ e = OverflowError)
  end.
Proof.
  unfold convert_price_to_contract_units, mul_int.
  change (of_int CHANGE_FACTOR) with (Ok (S754_finite false 7812500000000000 7)).
  rewrite !result_bind_Ok. unfold mul.
  destruct p as [s|s| |s m e].
  - cbn [SFmul round]. split; [discriminate|].
    split; [reflexivity|]. split; reflexivity.
  - cbn [SFmul round]. right. split; [discriminate|reflexivity].
  - cbn [SFmul round]. left. split; reflexivity.
  - cbn [SFmul]. rewrite xorb_false_r.
    pose proof (binary_round_aux_sign s (Zpos (m * 7812500000000000)) (e + 7)
                  loc_Exact ltac:(lia)) as Hsign.
    destruct (binary_round_aux prec emax s _ (e + 7) loc_Exact)
      as [s'|s'| |s' m' e']; try destruct Hsign.
    + cbn [round]. split; [discriminate|]. split; [reflexivity|].
      split; [reflexivity|]. destruct s'; discriminate.
    + cbn [round]. right. split; [discriminate|reflexivity].
    + cbn [round]. split; [discriminate|].
      assert (Hn : 0 ≤ (if 0 <=? e' then Zpos m' * 2 ^ e'
                        else half_even (Zpos m') (- e'))).
      { destruct (0 <=? e').
        - apply Z.mul_nonneg_nonneg; [lia|apply Z.pow_nonneg; lia].
        - apply half_even_nonneg. lia. }
      destruct s'.
      * split; [discriminate|]. split; [lia|discriminate].
      * split; [lia|]. split; discriminate.
Qed.

(** ** Further properties: the baseline map *)

Lemma gather_Ok {A : Type} (futures : list (result A)) (l : list A) :
  gather futures = Ok l → Forall2 (fun f a => f = Ok a) futures l.
Proof.
  revert l. induction futures as [|f rest IH]; intros l H.
  - injection H as <-. constructor.
  - cbn [gather] in H. destruct f as [a|e]; [|discriminate H].
    rewrite result_bind_Ok in H.
    destruct (gather rest) as [l'|e]; [|discriminate H].
    rewrite result_bind_Ok in H. injection H as <-.
    constructor; [reflexivity|apply IH; reflexivity].
Qed.

Lemma dict_of_loop_other (entries : list (pair * float)) (acc : rates_map)
    (k : string * string) :
  (∀ entry, entry ∈ entries → pair_key entry.1 ≠ k) →
  foldl (fun d entry => <[pair_key entry.1 := entry.2]> d) acc entries !! k = acc !! k.
Proof.
  revert acc. induction entries as [|e0 rest IH]; intros acc H; [reflexivity|].
  cbn [foldl]. rewrite IH by (intros entry Hin; apply H; right; exact Hin).
  apply lookup_insert_ne, H. left.
Qed.

Lemma dict_of_loop_found (entries : list (pair * float)) (acc : rates_map)
    (k : string * string) (v : float) :
  foldl (fun d entry => <[pair_key entry.1 := entry.2]> d) acc entries !! k = Some v →
  acc !! k = Some v ∨ ∃ entry, entry ∈ entries ∧ pair_key entry.1 = k ∧ entry.2 = v.
Proof.
  revert acc. induction entries as [|e0 rest IH]; intros acc H; [left; exact H|].
  cbn [foldl] in H. destruct (IH _ H) as [Hacc|(entry & Hin & Hk & Hv)].
  - destruct (decide (pair_key e0.1 = k)) as [Heq|Hne].
    + rewrite <- Heq, lookup_insert_eq in Hacc. injection Hacc as Hv.
      right. exists e0. split; [left|split; [exact Heq|exact Hv]].
    + rewrite lookup_insert_ne in Hacc by exact Hne. left. exact Hacc.
  - right. exists entry. split; [right; exact Hin|split; assumption].
Qed.

Lemma dict_of_loop_agree (entries : list (pair * float)) (acc : rates_map)
    (k : string * string) (v : float) :
  (∀ entry, entry ∈ entries → pair_key entry.1 = k → entry.2 = v) →
  (∃ entry, entry ∈ entries ∧ pair_key entry.1 = k) →
  foldl (fun d entry => <[pair_key entry.1 := entry.2]> d) acc entries !! k = Some v.
Proof.
  revert acc. induction entries as [|e0 rest IH]; intros acc Hall (entry & Hin & Hk).
  - inversion Hin.
  - cbn [foldl].
    destruct (decide (Exists (fun e : pair * float => pair_key e.1 = k) rest))
      as [Hex|Hnex].
    + apply IH.
      * intros e He. apply Hall. right. exact He.
      * apply Exists_exists in Hex as (e & He & Hke). exists e. split; assumption.
    + rewrite dict_of_loop_other.
      * apply elem_of_cons in Hin as [->|Hin].
        -- rewrite <- Hk, lookup_insert_eq. f_equal. apply Hall; [left|exact Hk].
        -- destruct Hnex. apply Exists_exists. exists entry. split; assumption.
      * intros e He Hke. apply Hnex, Exists_exists. exists e. split; assumption.
Qed.

Lemma get_rate_by_address (self : SanityContractUpdater.t) (c1 c2 : Coin.t) :
  Coin.address c1 = Coin.address c2 → get_rate self c1 = get_rate self c2.
Proof. intros H. unfold get_rate, format_coin_for_getter. rewrite H. reflexivity. Qed.

(** X4. When the baseline fetch succeeds, the map holds exactly the tracked
    pairs: every tracked coin is found under its pair with the rate [get_rate]
    gives for it, and every entry of the map is such a pair. *)
Theorem baseline_map_is_tracked_rates (self : SanityContractUpdater.t)
    (previous_rates : rates_map) :
  _get_previous_rates self = Ok previous_rates →
  (∀ coin, coin ∈ coins (_config self) →
     ∃ r, get_rate self coin = Ok r ∧
          _get_previous_rate coin (market (_config self)) previous_rates = Some r) ∧
  (∀ k r, previous_rates !! k = Some r →
     ∃ coin, coin ∈ coins (_config self) ∧
             k = pair_key (coin, market (_config self)) ∧
             get_rate self coin = Ok r).
Proof.
  unfold _get_previous_rates. intros H.
  destruct (gather _) as [entries|e] eqn:Hg; [|discriminate H].
  rewrite result_bind_Ok in H. injection H as <-.
  apply gather_Ok in Hg.
  assert (Hentries : ∀ entry, entry ∈ entries →
            ∃ coin, coin ∈ coins (_config self) ∧
                    entry.1 = (coin, market (_config self)) ∧
                    get_rate self coin = Ok entry.2).
  { intros entry Hin. apply list_elem_of_lookup in Hin as [i Hi].
    destruct (Forall2_lookup_r _ _ _ _ _ Hg Hi) as (f & Hf & Hfe).
    change (map ?g ?l) with (g <$> l) in Hf.
    rewrite list_lookup_fmap in Hf.
    destruct (coins (_config self) !! i) as [coin|] eqn:Hc; [|discriminate Hf].
    injection Hf as <-. exists coin.
    split; [apply list_elem_of_lookup; exists i; exact Hc|].
    unfold _get_pair_price_future in Hfe.
    destruct (get_rate self coin) as [r|e]; [|discriminate Hfe].
    rewrite result_bind_Ok in Hfe. injection Hfe as <-. split; reflexivity. }
  assert (Hcoins : ∀ coin, coin ∈ coins (_config self) →
            ∃ entry, entry ∈ entries ∧ entry.1 = (coin, market (_config self))).
  { intros coin Hin. apply list_elem_of_lookup in Hin as [i Hi].
    assert (Hf : map (_get_pair_price_future self) (coins (_config self)) !! i
                 = Some (_get_pair_price_future self coin)).
    { change (map ?g ?l) with (g <$> l). rewrite list_lookup_fmap, Hi. reflexivity. }
    destruct (Forall2_lookup_l _ _ _ _ _ Hg Hf) as (entry & He & Hfe).
    exists entry. split; [apply list_elem_of_lookup; exists i; exact He|].
    unfold _get_pair_price_future in Hfe.
    destruct (get_rate self coin) as [r|e]; [|discriminate Hfe].
    rewrite result_bind_Ok in Hfe. injection Hfe as <-. reflexivity. }
  split.
  - intros coin Hin. destruct (Hcoins coin Hin) as (entry & He & Hk).
    destruct (Hentries entry He) as (coin' & _ & Hk' & Hr).
    rewrite Hk in Hk'. injection Hk' as <-.
    exists entry.2. split; [exact Hr|].
    rewrite get_previous_rate_lookup. unfold dict_of.
    apply dict_of_loop_agree.
    + intros entry' He' Hkey.
      destruct (Hentries entry' He') as (coin' & _ & Hk' & Hr').
      rewrite Hk' in Hkey. unfold pair_key in Hkey. cbn [fst snd] in Hkey.
      injection Hkey as Haddr.
      rewrite (get_rate_by_address self coin' coin Haddr), Hr in Hr'.
      injection Hr' as Hr'. symmetry. exact Hr'.
    + exists entry. split; [exact He|]. rewrite Hk. reflexivity.
  - intros k r Hlook. unfold dict_of in Hlook.
    apply dict_of_loop_found in Hlook as [Hempty|(entry & He & Hk & Hv)].
    + rewrite lookup_empty in Hempty. discriminate Hempty.
    + destruct (Hentries entry He) as (coin & Hin & Hk' & Hr).
      exists coin. split; [exact Hin|]. rewrite <- Hk, Hk', <- Hv.
      split; [reflexivity|exact Hr].
Qed.

Lemma baseline_map_is_tracked_rates_witness :
  (∀ coin, coin ∈ [OMG; KNC] →
     ∃ r, get_rate (updater_on fresh_chain [OMG; KNC]) coin = Ok r ∧
          _get_previous_rate coin ETH
            (dict_of [((OMG, ETH), zero); ((KNC, ETH), zero)]) = Some r) ∧
  (∀ k r, dict_of [((OMG, ETH), zero); ((KNC, ETH), zero)] !! k = Some r →
     ∃ coin, coin ∈ [OMG; KNC] ∧ k = pair_key (coin, ETH) ∧
             get_rate (updater_on fresh_chain [OMG; KNC]) coin = Ok r).
Proof.
  apply (baseline_map_is_tracked_rates (updater_on fresh_chain [OMG; KNC])
           (dict_of [((OMG, ETH), zero); ((KNC, ETH), zero)])).
  reflexivity.
Defined.

(** X5. Whatever [get_rate] raises for a tracked coin, the baseline fetch
    raises and the cycle raises the same exception with nothing sent and the
    counter unchanged; an empty answer of the connector is such a failure,
    [IndexError], which the handler of [get_rate] does not catch. *)
Theorem failed_read_aborts_cycle (self : SanityContractUpdater.t) (coin : Coin.t)
    (coin_price_data : list observation) (force : bool) (h : heap) :
  coin ∈ coins (_config self) →
  (call_local_function (_web3 self) GET_RATE_FUNCTION_NAME [Coin.address coin] = Ok []
   ∨ ∃ e, get_rate self coin = Raise e) →
  (call_local_function (_web3 self) GET_RATE_FUNCTION_NAME [Coin.address coin] = Ok [] →
   get_rate self coin = Raise IndexError) ∧
  ∃ e, _get_previous_rates self = Raise e ∧
       update_prices self coin_price_data force h = (Raise e, h).
Proof.
  intros Hin Hfail.
  assert (Hempty : call_local_function (_web3 self) GET_RATE_FUNCTION_NAME
                     [Coin.address coin] = Ok [] → get_rate self coin = Raise IndexError).
  { intros H. unfold get_rate, format_coin_for_getter. rewrite H. reflexivity. }
  split; [exact Hempty|].
  assert (Hraise : ∃ e, get_rate self coin = Raise e).
  { destruct Hfail as [H|H]; [exists IndexError; apply Hempty, H|exact H]. }
  destruct Hraise as [e0 He0].
  destruct (gather_raises (map (_get_pair_price_future self) (coins (_config self))) e0)
    as [e He].
  - apply list_elem_of_fmap. exists coin. split; [|exact Hin].
    unfold _get_pair_price_future. rewrite He0. reflexivity.
  - exists e. assert (Hf : _get_previous_rates self = Raise e)
      by (unfold _get_previous_rates; rewrite He; reflexivity).
    split; [exact Hf|]. rewrite update_prices_cases, Hf. reflexivity.
Qed.

Lemma failed_read_aborts_cycle_witness :
  (call_local_function silent_chain GET_RATE_FUNCTION_NAME [Coin.address KNC] = Ok [] →
   get_rate (updater_on silent_chain [OMG; KNC]) KNC = Raise IndexError) ∧
  ∃ e, _get_previous_rates (updater_on silent_chain [OMG; KNC]) = Raise e ∧
       update_prices (updater_on silent_chain [OMG; KNC])
         [((OMG, ETH), Some (float_lit 1 1))] true initial_heap
       = (Raise e, initial_heap).
Proof.
  apply (failed_read_aborts_cycle (updater_on silent_chain [OMG; KNC]) KNC).
  - right. left.
  - left. reflexivity.
Defined.

(** ** Further properties: what one cycle can do *)

(** X6. A cycle sends at most one write, always to [setSanityRates] and
    after the writes already logged; the counter grows by one exactly when
    the cycle returns a receipt, and then a write was sent; otherwise the
    counter is unchanged. *)
Theorem cycle_sends_at_most_one_write (self : SanityContractUpdater.t)
    (coin_price_data : list observation) (force : bool) (h : heap) :
  let outcome := update_prices self coin_price_data force h in
  (remote_calls outcome.2 = remote_calls h ∨
   ∃ eth_args, remote_calls outcome.2 =
               remote_calls h ++ [(SET_RATES_FUNCTION_NAME, eth_args)]) ∧
  ((∃ rs, outcome.1 = Ok (Some rs) ∧
          _updates_requested outcome.2 = _updates_requested h + 1 ∧
          remote_calls outcome.2 ≠ remote_calls h) ∨
   ((∀ rs, outcome.1 ≠ Ok (Some rs)) ∧
    _updates_requested outcome.2 = _updates_requested h)).
Proof.
  cbv zeta. rewrite update_prices_cases.
  assert (Hgrow : ∀ (l : list (string * (list string * list Z))) x, l ++ [x] ≠ l).
  { intros l x H. apply (f_equal length) in H. rewrite length_app in H.
    cbn [length] in H. lia. }
  destruct (_get_previous_rates self) as [previous_rates|e];
    [|split; [left; reflexivity|right; split; [discriminate|reflexivity]]].
  destruct (decided_batch previous_rates coin_price_data force) as [batch|e];
    [|split; [left; reflexivity|right; split; [discriminate|reflexivity]]].
  destruct (nonempty batch);
    [|split; [left; reflexivity|right; split; [discriminate|reflexivity]]].
  destruct (format_coin_prices_for_setter batch) as [eth_args|e];
    [|split; [left; reflexivity|right; split; [discriminate|reflexivity]]].
  destruct (call_remote_function _ _ _) as [rs|e].
  - split; [right; exists eth_args; reflexivity|].
    left. exists rs. split; [reflexivity|]. split; [reflexivity|]. apply Hgrow.
  - destruct e; (split; [right; exists eth_args; reflexivity|]);
      right; (split; [discriminate|reflexivity]).
Qed.

Lemma decide_all_raises_type_error (previous_rates : rates_map)
    (new_rates : list observation) (e : exn) :
  decide_all previous_rates new_rates = Raise e → e = TypeError.
Proof.
  induction new_rates as [|o rest IH]; intros H; [discriminate H|].
  cbn [decide_all] in H.
  destruct (decision previous_rates o) as [b|e'] eqn:Hd.
  - rewrite result_bind_Ok in H.
    destruct (decide_all previous_rates rest) as [l|e'']; [discriminate H|].
    apply IH. exact H.
  - apply decision_raises in Hd as ->.
    change (Raise TypeError = Raise e :> result (list observation)) in H.
    injection H as <-. reflexivity.
Qed.

(** X7. Once the baseline has been fetched, a cycle never lets the
    pending-transaction collision escape, and what it raises is of three
    kinds: [TypeError] from the decision step, with nothing sent and only
    when not forced; [OverflowError] or [ValueError] from the conversion of a
    price, with nothing sent; or the exception the connector raised on the
    one write that was sent. *)
Theorem cycle_raises_only (self : SanityContractUpdater.t)
    (coin_price_data : list observation) (force : bool) (h h' : heap)
    (previous_rates : rates_map) (e : exn) :
  _get_previous_rates self = Ok previous_rates →
  update_prices self coin_price_data force h = (Raise e, h') →
  e ≠ PreviousTransactionPending ∧
  ((force = false ∧ e = TypeError ∧ h' = h) ∨
   ((e = OverflowError ∨ e = ValueError) ∧ h' = h) ∨
   (∃ eth_args,
      call_remote_function (_web3 self) SET_RATES_FUNCTION_NAME eth_args = Raise e ∧
      h' = sent h eth_args)).
Proof.
  intros Hprev. rewrite update_prices_cases, Hprev.
  destruct (decided_batch previous_rates coin_price_data force) as [batch|e0] eqn:Hb.
  - destruct (nonempty batch); [|discriminate].
    destruct (format_coin_prices_for_setter batch) as [eth_args|e0] eqn:Hf.
    + destruct (call_remote_function _ _ _) as [rs|e0] eqn:Hc; [discriminate|].
      destruct e0; intros H; try discriminate H; injection H as <- <-;
        (split; [discriminate|]); right; right; exists eth_args;
        (split; [exact Hc|reflexivity]).
    + intros H. injection H as <- <-.
      rewrite format_is_serialize in Hf.
      apply serialize_Raise in Hf as (c & m & x & _ & _ & Hc).
      apply convert_price_raises in Hc.
      split; [destruct Hc as [-> | ->]; discriminate|].
      right. left. split; [exact Hc|reflexivity].
  - intros H. injection H as <- <-. unfold decided_batch in Hb.
    destruct force; [discriminate Hb|].
    rewrite prepare_is_decide_all in Hb.
    apply decide_all_raises_type_error in Hb as ->.
    split; [discriminate|]. left. repeat split; reflexivity.
Qed.

Lemma cycle_raises_only_witness :
  TypeError ≠ PreviousTransactionPending ∧
  ((false = false ∧ TypeError = TypeError ∧ initial_heap = initial_heap) ∨
   ((TypeError = OverflowError ∨ TypeError = ValueError) ∧ initial_heap = initial_heap) ∨
   (∃ eth_args,
      call_remote_function fresh_chain SET_RATES_FUNCTION_NAME eth_args
        = Raise TypeError ∧
      initial_heap = sent initial_heap eth_args)).
Proof.
  apply (cycle_raises_only (updater_on fresh_chain [OMG])
           [((OMG, ETH), None)] false initial_heap initial_heap stored_0 TypeError).
  - reflexivity.
  - reflexivity.
Defined.

(** X13. One price that cannot be converted (NaN, infinite, or too large once
    scaled) among the truthy prices of a forced batch keeps the whole batch
    from being sent: the cycle raises [OverflowError] or [ValueError] before
    the write, so no other pair of the batch is updated either. *)
Theorem unconvertible_price_blocks_batch (self : SanityContractUpdater.t)
    (coin_price_data : list observation) (h : heap) (previous_rates : rates_map)
    (pr : pair) (x : float) (e0 : exn) :
  _get_previous_rates self = Ok previous_rates →
  (pr, Some x) ∈ coin_price_data →
  truthy x = true →
  convert_price_to_contract_units x = Raise e0 →
  ∃ e, update_prices self coin_price_data true h = (Raise e, h) ∧
       (e = OverflowError ∨ e = ValueError).
Proof.
  intros Hprev Hin Hx Hconv.
  rewrite update_prices_cases, Hprev. cbn [decided_batch].
  rewrite nonempty_true by (intros ->; inversion Hin).
  rewrite format_is_serialize.
  assert (Hs : ∃ e, serialize coin_price_data = Raise e).
  { clear Hprev. induction coin_price_data as [|[pr' p'] rest IH]; [inversion Hin|].
    cbn [serialize snd fst].
    apply elem_of_cons in Hin as [Heq|Hin].
    - injection Heq as <- <-. rewrite Hx, Hconv. exists e0. reflexivity.
    - destruct (IH Hin) as [e He].
      destruct p' as [y|]; [|exists e; exact He].
      destruct (truthy y); [|exists e; exact He].
      destruct (convert_price_to_contract_units y) as [r|e'];
        [|exists e'; reflexivity].
      rewrite result_bind_Ok, He. exists e. reflexivity. }
  destruct Hs as [e He]. rewrite He. exists e. split; [reflexivity|].
  apply serialize_Raise in He as (c & m & y & _ & _ & Hc).
  apply (convert_price_raises _ _ Hc).
Qed.

Lemma unconvertible_price_blocks_batch_witness :
  ∃ e, update_prices (updater_on fresh_chain [OMG; KNC])
         [((OMG, ETH), Some (float_lit 1 1)); ((KNC, ETH), Some S754_nan)]
         true initial_heap
       = (Raise e, initial_heap) ∧
       (e = OverflowError ∨ e = ValueError).
Proof.
  apply (unconvertible_price_blocks_batch (updater_on fresh_chain [OMG; KNC])
           [((OMG, ETH), Some (float_lit 1 1)); ((KNC, ETH), Some S754_nan)]
           initial_heap (dict_of [((OMG, ETH), zero); ((KNC, ETH), zero)])
           (KNC, ETH) S754_nan ValueError).
  - reflexivity.
  - right. left.
  - reflexivity.
  - reflexivity.
Defined.

(** ** Further properties: the decided batch *)

Lemma decide_all_sublist (previous_rates : rates_map) (new_rates updates : list observation) :
  decide_all previous_rates new_rates = Ok updates →
  sublist updates new_rates ∧ Forall (fun obs => decision previous_rates obs = Ok true) updates.
Proof.
  revert updates. induction new_rates as [|o rest IH]; intros updates H.
  - injection H as <-. split; constructor.
  - cbn [decide_all] in H.
    destruct (decision previous_rates o) as [b|e] eqn:Hd; [|discriminate H].
    rewrite result_bind_Ok in H.
    destruct (decide_all previous_rates rest) as [l|e]; [|discriminate H].
    rewrite result_bind_Ok in H. injection H as <-.
    destruct (IH l eq_refl) as [Hsub Hall]. destruct b.
    + split; [apply sublist_skip, Hsub|]. constructor; [exact Hd|exact Hall].
    + split; [apply sublist_cons, Hsub|exact Hall].
Qed.

Lemma decide_all_fixed (previous_rates : rates_map) (updates : list observation) :
  Forall (fun obs => decision previous_rates obs = Ok true) updates →
  decide_all previous_rates updates = Ok updates.
Proof.
  induction 1 as [|o rest Ho _ IH]; [reflexivity|].
  cbn [decide_all]. rewrite Ho, result_bind_Ok, IH. reflexivity.
Qed.

(** X8. The decided batch keeps the order of the observations: it is a
    subsequence of the input, nothing is added, duplicated or moved. Deciding
    again on a decided batch against the same baseline changes nothing. *)
Theorem decided_batch_is_stable_subsequence (previous_rates : rates_map)
    (new_rates updates : list observation) :
  _prepare_rates_for_update previous_rates new_rates = Ok updates →
  sublist updates new_rates ∧
  _prepare_rates_for_update previous_rates updates = Ok updates.
Proof.
  rewrite !prepare_is_decide_all. intros H.
  destruct (decide_all_sublist _ _ _ H) as [Hsub Hall].
  split; [exact Hsub|apply decide_all_fixed, Hall].
Qed.

Lemma decided_batch_is_stable_subsequence_witness :
  sublist [((OMG, ETH), Some (float_lit 106 1))]
    [((OMG, ETH), Some (float_lit 104 1)); ((OMG, ETH), Some (float_lit 105 1));
     ((OMG, ETH), Some (float_lit 106 1))] ∧
  _prepare_rates_for_update stored_100 [((OMG, ETH), Some (float_lit 106 1))]
  = Ok [((OMG, ETH), Some (float_lit 106 1))].
Proof.
  apply (decided_batch_is_stable_subsequence stored_100
           [((OMG, ETH), Some (float_lit 104 1)); ((OMG, ETH), Some (float_lit 105 1));
            ((OMG, ETH), Some (float_lit 106 1))]
           [((OMG, ETH), Some (float_lit 106 1))]).
  reflexivity.
Defined.

Lemma sub_self_is_zero (x : float) :
  match x with S754_finite _ _ _ => True | _ => False end →
  sub x x = S754_zero false.
Proof.
  destruct x as [s|s| |s m e]; intros H; try destruct H.
  unfold sub. cbn [SFsub]. rewrite Z.sub_diag. reflexivity.
Qed.

(** X9. An observed price equal to a stored non-zero rate is not an update,
    whatever the rate, as long as the coin's threshold is not negative: the
    relative change is then 0.0, or NaN for a rate that is not finite. *)
Theorem unchanged_price_is_not_updated (coin : Coin.t) (market : Market.t)
    (rate : float) :
  eq_zero rate = false →
  gt zero (Coin.volatility coin) = false →
  _should_update_price coin market (Some rate) (Some rate) = Ok false.
Proof.
  intros Hnz Hvol. rewrite should_update_some, Hnz. f_equal.
  unfold relative_change.
  destruct rate as [s|s| |s m e].
  - destruct s; discriminate Hnz.
  - destruct s; unfold gt, SFltb; cbn; destruct (Coin.volatility coin) as [[]|[]| |[] ? ?];
      reflexivity.
  - unfold gt, SFltb; cbn. destruct (Coin.volatility coin) as [[]|[]| |[] ? ?];
      reflexivity.
  - rewrite (sub_self_is_zero (S754_finite s m e) I). cbn [abs SFabs SFdiv].
    unfold gt, SFltb in *.
    destruct (Coin.volatility coin) as [[]|[]| |[] ? ?]; destruct s;
      cbn in *; try reflexivity; discriminate Hvol.
Qed.

Lemma unchanged_price_is_not_updated_witness :
  _should_update_price OMG ETH (Some (float_lit 100 1)) (Some (float_lit 100 1))
  = Ok false.
Proof.
  apply (unchanged_price_is_not_updated OMG ETH (float_lit 100 1)).
  - reflexivity.
  - reflexivity.
Defined.

(** ** Further properties: serialization *)

Lemma serialize_app (l1 l2 : list observation) :
  serialize (l1 ++ l2) =
  (a ← serialize l1; b ← serialize l2; Ok (a.1 ++ b.1, a.2 ++ b.2)).
Proof.
  induction l1 as [|[pr p] rest IH].
  - cbn [app serialize]. rewrite result_bind_Ok.
    destruct (serialize l2) as [[s r]|e]; reflexivity.
  - cbn [app serialize snd fst]. destruct p as [x|]; [|exact IH].
    destruct (truthy x); [|exact IH].
    destruct (convert_price_to_contract_units x) as [r0|e]; [|reflexivity].
    rewrite !result_bind_Ok, IH.
    destruct (serialize rest) as [[s r]|e]; [|reflexivity].
    rewrite !result_bind_Ok.
    destruct (serialize l2) as [[s2 r2]|e]; reflexivity.
Qed.

(** X14. Serialization goes through concatenation: the arrays of two batches
    put end to end are the arrays of the first followed by those of the
    second, and the exception of the first batch that fails is the one
    raised. *)
Theorem format_of_concatenation (first second : list observation) :
  format_coin_prices_for_setter (first ++ second) =
  (a ← format_coin_prices_for_setter first;
   b ← format_coin_prices_for_setter second;
   Ok (a.1 ++ b.1, a.2 ++ b.2)).
Proof. rewrite !format_is_serialize. apply serialize_app. Qed.

Lemma serialize_sublist (l1 l2 : list observation) :
  sublist l1 l2 →
  ∀ sources rates, serialize l2 = Ok (sources, rates) →
  ∃ s r, serialize l1 = Ok (s, r) ∧ sublist (zip s r) (zip sources rates).
Proof.
  induction 1 as [|[pr p] l1 l2 Hsub IH|[pr p] l1 l2 Hsub IH]; intros sources rates H.
  - exists [], []. split; [reflexivity|apply sublist_nil_l].
  - cbn [serialize snd fst] in H |- *.
    destruct p as [x|]; [|apply IH, H].
    destruct (truthy x); [|apply IH, H].
    destruct (convert_price_to_contract_units x) as [r0|e]; [|discriminate H].
    rewrite result_bind_Ok in H |- *.
    destruct (serialize l2) as [[S' R']|e]; [|discriminate H].
    rewrite result_bind_Ok in H. cbn [fst snd] in H. injection H as <- <-.
    destruct (IH S' R' eq_refl) as (s & r & -> & Hz).
    rewrite result_bind_Ok. cbn [fst snd].
    eexists _, _. split; [reflexivity|]. cbn [zip zip_with]. apply sublist_skip, Hz.
  - cbn [serialize snd fst] in H.
    destruct p as [x|]; [|apply IH, H].
    destruct (truthy x); [|apply IH, H].
    destruct (convert_price_to_contract_units x) as [r0|e]; [|discriminate H].
    rewrite result_bind_Ok in H.
    destruct (serialize l2) as [[S' R']|e]; [|discriminate H].
    rewrite result_bind_Ok in H. cbn [fst snd] in H. injection H as <- <-.
    destruct (IH S' R' eq_refl) as (s & r & Hs & Hz).
    exists s, r. split; [exact Hs|]. cbn [zip zip_with]. apply sublist_cons, Hz.
Qed.

(** X11. What a decided cycle would send is part of what a forced cycle
    would send: when the whole input serializes, so does the decided batch,
    and its (address, rate) entries are a subsequence of those of the whole
    input, with the same rate for each pair. *)
Theorem decided_arrays_within_forced (previous_rates : rates_map)
    (coin_price_data batch : list observation) (sources : list string) (rates : list Z) :
  _prepare_rates_for_update previous_rates coin_price_data = Ok batch →
  format_coin_prices_for_setter coin_price_data = Ok (sources, rates) →
  ∃ s r, format_coin_prices_for_setter batch = Ok (s, r) ∧
         sublist (zip s r) (zip sources rates).
Proof.
  rewrite prepare_is_decide_all, !format_is_serialize. intros Hb Hf.
  apply decide_all_sublist in Hb as [Hsub _].
  apply (serialize_sublist _ _ Hsub _ _ Hf).
Qed.

Lemma decided_arrays_within_forced_witness :
  ∃ s r, format_coin_prices_for_setter [((OMG, ETH), Some (float_lit 106 1))]
         = Ok (s, r) ∧
         sublist (zip s r)
           (zip [Coin.address OMG; Coin.address OMG] [104 * 10 ^ 18; 106 * 10 ^ 18]).
Proof.
  apply (decided_arrays_within_forced stored_100
           [((OMG, ETH), Some (float_lit 104 1)); ((OMG, ETH), Some (float_lit 106 1))]
           [((OMG, ETH), Some (float_lit 106 1))]).
  - reflexivity.
  - reflexivity.
Defined.

(** ** Further properties: the averaging monitor's store *)

Import PrintValuesAndAverageMonitor.

(** X12. [_save_data] appends to the list kept for each pair exactly the
    prices that the data carries for that pair, in order, and leaves the lists
    of the other pairs alone; a price that is [None] is never stored, and a
    pair gets an entry only once it has had a price. *)
Theorem save_data_appends_prices (d : all_data) (data : list observation)
    (k : string * string) :
  default [] (_save_data d data !! k) = default [] (d !! k) ++ recorded k data ∧
  (_save_data d data !! k = None ↔ d !! k = None ∧ recorded k data = []).
Proof.
  revert d. induction data as [|[pr p] rest IH]; intros d.
  - cbn [_save_data recorded omap list_omap]. rewrite app_nil_r.
    split; [reflexivity|]. split; [intros H; split; [exact H|reflexivity]|intros [H _]; exact H].
  - cbn [_save_data]. unfold recorded. cbn [omap list_omap fst snd].
    fold (recorded k rest).
    destruct p as [x|].
    + destruct (IH (append_price d pr x)) as [IH1 IH2]. unfold append_price in *.
      destruct (decide (pair_key pr = k)) as [Hk|Hk].
      * rewrite Hk in *. rewrite lookup_insert_eq in IH1, IH2.
        change (default [] (Some (default [] (d !! k) ++ [x])))
          with (default [] (d !! k) ++ [x]) in IH1.
        split; [rewrite IH1, <- app_assoc; reflexivity|].
        rewrite IH2. split; [intros [H _]; discriminate H|intros [_ H]; discriminate H].
      * rewrite lookup_insert_ne in IH1, IH2 by exact Hk.
        split; [exact IH1|exact IH2].
    + destruct (IH d) as [IH1 IH2].
      destruct (decide (pair_key pr = k)); split; assumption.
Qed.

(** ** Further properties: edge cases of a cycle *)

(** X16. The decision step fails exactly when some observation has no price
    or no fetched baseline, and then with [TypeError]; it raises nothing
    else. *)
Theorem decision_step_fails_iff (previous_rates : rates_map)
    (new_rates : list observation) :
  (_prepare_rates_for_update previous_rates new_rates = Raise TypeError ↔
   ∃ obs, obs ∈ new_rates ∧
          (obs.2 = None ∨ previous_rates !! pair_key obs.1 = None)) ∧
  (∀ e, _prepare_rates_for_update previous_rates new_rates = Raise e → e = TypeError).
Proof.
  rewrite prepare_is_decide_all. split; [|apply decide_all_raises_type_error].
  split.
  - intros Hraise.
    destruct (decide (Exists (fun obs : observation =>
                obs.2 = None ∨ previous_rates !! pair_key obs.1 = None) new_rates))
      as [Hex|Hnex].
    + apply Exists_exists in Hex as (obs & Hin & H). exists obs. split; assumption.
    + exfalso. destruct (decide_all_total previous_rates new_rates) as [l Hl].
      * intros obs Hin. apply usable_decides.
        -- destruct (obs.2) as [x|] eqn:Hp; [eexists; reflexivity|].
           destruct Hnex. apply Exists_exists. exists obs. split; [exact Hin|left; exact Hp].
        -- destruct (previous_rates !! pair_key obs.1) as [b|] eqn:Hb;
             [eexists; reflexivity|].
           destruct Hnex. apply Exists_exists. exists obs. split; [exact Hin|right; exact Hb].
      * rewrite Hl in Hraise. discriminate Hraise.
  - intros ([[coin market] p] & Hin & [Hp|Hb]); cbn [fst snd] in *.
    + subst p. apply (decide_all_raises _ _ _ TypeError Hin).
      unfold decision. cbn [fst snd]. apply should_update_no_price.
    + apply (decide_all_raises _ _ _ TypeError Hin), decision_missing, Hb.
Qed.

(** X15. Against a contract that stores 0 for every observed pair, the plain
    monitor acts as the forced one: when every observation carries a price,
    the decision step keeps the whole input and both send the same write. *)
Theorem fresh_contract_acts_as_forced (web3 : Web3Connector) (config : Config)
    (data : list observation) (h : heap) (previous_rates : rates_map) :
  _get_previous_rates {| _web3 := web3; _config := config |} = Ok previous_rates →
  (∀ obs, obs ∈ data →
     is_Some obs.2 ∧
     ∃ b, previous_rates !! pair_key obs.1 = Some b ∧ eq_zero b = true) →
  ContractUpdaterMonitor.act (ContractUpdaterMonitor.init web3 config false) data h =
  ContractUpdaterMonitor.act (ContractUpdaterMonitorForce.init web3 config) data h.
Proof.
  intros Hprev Hall. unfold ContractUpdaterMonitor.act, ContractUpdaterMonitorForce.init,
    ContractUpdaterMonitor.init. cbn [ContractUpdaterMonitor._updater ContractUpdaterMonitor._force].
  rewrite !update_prices_cases, Hprev. unfold decided_batch.
  rewrite prepare_is_decide_all, decide_all_fixed; [reflexivity|].
  apply Forall_forall. intros [[coin market] p] Hin.
  destruct (Hall _ Hin) as [[x Hx] (b & Hb & Hz)]. cbn [fst snd] in *. subst p.
  rewrite (decision_some _ _ _ _ _ Hb), Hz. reflexivity.
Qed.

Lemma fresh_contract_acts_as_forced_witness :
  ContractUpdaterMonitor.act
    (ContractUpdaterMonitor.init fresh_chain {| coins := [OMG]; market := ETH |} false)
    [((OMG, ETH), Some (float_lit 16883 1000000))] initial_heap =
  ContractUpdaterMonitor.act
    (ContractUpdaterMonitorForce.init fresh_chain {| coins := [OMG]; market := ETH |})
    [((OMG, ETH), Some (float_lit 16883 1000000))] initial_heap.
Proof.
  apply (fresh_contract_acts_as_forced fresh_chain {| coins := [OMG]; market := ETH |}
           [((OMG, ETH), Some (float_lit 16883 1000000))] initial_heap stored_0).
  - reflexivity.
  - intros obs Hin. apply list_elem_of_singleton in Hin. rewrite Hin.
    split; [eexists; reflexivity|]. exists zero. split; reflexivity.
Defined.

Lemma serialize_all_falsy (batch : list observation) :
  (∀ obs, obs ∈ batch → price_truthy obs.2 = false) →
  serialize batch = Ok ([], []).
Proof.
  induction batch as [|[pr p] rest IH]; intros H; [reflexivity|].
  cbn [serialize snd fst].
  assert (Hp : price_truthy p = false) by (apply (H (pr, p)); left).
  assert (Hrest : serialize rest = Ok ([], []))
    by (apply IH; intros obs Hin; apply H; right; exact Hin).
  destruct p as [x|]; [|exact Hrest].
  cbn [price_truthy] in Hp. rewrite Hp. exact Hrest.
Qed.

(** X10. A forced cycle on observations that are all without a usable price
    ([None] or 0) still sends a write: the input is not empty, so
    [setSanityRates] is called with two empty arrays, and the update is
    counted when the connector returns a receipt. *)
Theorem forced_cycle_sends_empty_arrays (self : SanityContractUpdater.t)
    (coin_price_data : list observation) (h : heap) (previous_rates : rates_map)
    (rs : receipt) :
  _get_previous_rates self = Ok previous_rates →
  coin_price_data ≠ [] →
  (∀ obs, obs ∈ coin_price_data → price_truthy obs.2 = false) →
  call_remote_function (_web3 self) SET_RATES_FUNCTION_NAME ([], []) = Ok rs →
  update_prices self coin_price_data true h =
  (Ok (Some rs),
   {| _updates_requested := _updates_requested h + 1;
      remote_calls := remote_calls h ++ [(SET_RATES_FUNCTION_NAME, ([], []))] |}).
Proof.
  intros Hprev Hne Hall Hc.
  rewrite update_prices_cases, Hprev. cbn [decided_batch].
  rewrite (nonempty_true _ Hne), format_is_serialize, (serialize_all_falsy _ Hall), Hc.
  reflexivity.
Qed.

Lemma forced_cycle_sends_empty_arrays_witness :
  update_prices (updater_on fresh_chain [OMG]) [((OMG, ETH), None)] true initial_heap =
  (Ok (Some "0xreceipt"%string),
   {| _updates_requested := 0 + 1;
      remote_calls := [] ++ [(SET_RATES_FUNCTION_NAME, ([], []))] |}).
Proof.
  apply (forced_cycle_sends_empty_arrays (updater_on fresh_chain [OMG])
           [((OMG, ETH), None)] initial_heap stored_0 "0xreceipt"%string).
  - reflexivity.
  - discriminate.
  - intros obs Hin. apply list_elem_of_singleton in Hin. rewrite Hin. reflexivity.
  - reflexivity.
Defined.
